(** * Weekly shop-floor planning: the scheduling core of [etl.py]

    A shallow embedding of the planning engine of [src/etl.py]: the time
    helpers, the task pool builder, the day scheduler and the weekly
    proposal generator, followed by the properties of the planning
    specification that are settled on them.

    Modelling conventions.
    - Python [int] is [Z].  Python [float] hours are exact rationals [Q]:
      binary64 rounding error is not modelled in the definitions; the
      concrete runs below use inputs whose float arithmetic is exact or
      far from a rounding boundary.  Durations of assignments are whole
      quarter hours, which binary64 holds exactly.  Where a property
      depends on a float product, quotient or sum, its statement keeps to
      inputs or bounds for which the binary64 result agrees with the exact
      one; the last section evaluates the boundary inputs in binary64.
    - Rows of equal sort key keep the order of the table; the source
      leaves their order to the sorting algorithm of pandas.  No property
      below depends on the order among equal keys.
    - [date] and [datetime] are not bounded here; the source raises for
      years outside 1 to 9999.
    - A [datetime] is the number of minutes since 0001-01-01 00:00 of the
      proleptic Gregorian calendar ([date.toordinal] starts at 1); every
      [timedelta] of the source is a whole number of minutes or days.
    - A pandas table is the list of its rows, a row is a record of the
      columns the code reads.  Identifier columns hold strings; a missing
      cell ([NaN]) of the columns [RemainingTime] and [Workcell] is [None].
    - A Python [dict] is a [gmap], the set of available operators a
      [gset]. *)

From Stdlib Require Import ZArith QArith Qround Qabs Lia Lqa List.
From Stdlib Require Import OrderedTypeEx Sorted Floats.
From stdpp Require Import base gmap strings list.

Set Warnings "-clear-no-such-hyp".

Open Scope Z_scope.

(** ** Configuration *)

Definition TIME_STEP_MIN : Z := 15.

(** [START_TIME = time(8, 0)], as minutes after midnight. *)
Definition START_TIME : Z := 8 * 60.

(** ** Dates ([datetime.date]) *)

Record date : Type := mkdate { year : Z; month : Z; day : Z }.

Definition is_leap (y : Z) : bool :=
  (y mod 4 =? 0) && (negb (y mod 100 =? 0) || (y mod 400 =? 0)).

Definition days_in_month (y m : Z) : Z :=
  if m =? 2 then (if is_leap y then 29 else 28)
  else if (m =? 4) || (m =? 6) || (m =? 9) || (m =? 11) then 30
  else 31.

Definition days_before_year (y : Z) : Z :=
  let y1 := y - 1 in
  y1 * 365 + y1 / 4 - y1 / 100 + y1 / 400.

Fixpoint days_before_month_aux (y : Z) (n : nat) : Z :=
  match n with
  | O => 0
  | S k => days_before_month_aux y k + days_in_month y (Z.of_nat (S k))
  end.

(** Days of year [y] that precede the first day of month [m]. *)
Definition days_before_month (y m : Z) : Z :=
  days_before_month_aux y (Z.to_nat (m - 1)).

Definition toordinal (d : date) : Z :=
  days_before_year (year d) + days_before_month (year d) (month d) + day d.

(** [date.weekday()]: Monday is 0, Sunday is 6. *)
Definition weekday (d : date) : Z := (toordinal d + 6) mod 7.

(** [d + timedelta(days=1)] and [d - timedelta(days=1)]. *)
Definition next_day (d : date) : date :=
  if day d <? days_in_month (year d) (month d)
  then mkdate (year d) (month d) (day d + 1)
  else if month d <? 12 then mkdate (year d) (month d + 1) 1
  else mkdate (year d + 1) 1 1.

Definition prev_day (d : date) : date :=
  if 1 <? day d then mkdate (year d) (month d) (day d - 1)
  else if 1 <? month d
  then mkdate (year d) (month d - 1) (days_in_month (year d) (month d - 1))
  else mkdate (year d - 1) 12 31.

(** [d + timedelta(days=n)]. *)
Definition add_days (d : date) (n : Z) : date :=
  if 0 <=? n then Nat.iter (Z.to_nat n) next_day d
  else Nat.iter (Z.to_nat (- n)) prev_day d.

(** ** Time helpers *)

(** [datetime.combine(d, t)] with [t] given in minutes after midnight. *)
Definition dt_combine (d : date) (t : Z) : Z := (toordinal d - 1) * 1440 + t.

(** [int(np.ceil(minutes / step) * step)]: the quotient is formed exactly
    (the ceiling of the float quotient is that of the exact one for
    minutes from 0 and steps below 2^52, so for the minute counts of a
    day); a zero [step] raises [ZeroDivisionError] in the source and is
    not modelled, the only caller passes [TIME_STEP_MIN]. *)
Definition round_up_to_step (minutes step : Z) : Z :=
  - ((- minutes) / step) * step.

(** The loop [while d.month == month] of [business_days_in_month]; a month
    has at most 31 days, which bounds the iterations. *)
Fixpoint business_days_loop (fuel : nat) (m : Z) (d : date) (days : list date)
  : list date :=
  match fuel with
  | O => days
  | S k =>
      if month d =? m
      then business_days_loop k m (next_day d)
             (if weekday d <? 5 then days ++ [d] else days)
      else days
  end.

(** The source raises [ValueError] when [date(year, month, 1)] does not
    exist and [OverflowError] when the loop steps past 9999-12-31; these
    error paths are not modelled, see [month_in_range]. *)
Definition business_days_in_month (y m : Z) : list date :=
  business_days_loop 32 m (mkdate y m 1) [].

Definition week_monday (d : date) : date := add_days d (- weekday d).

(** ** Tables *)

(** Python's [int(x)] on a float: truncation toward zero. *)
Definition int_of_Q (x : Q) : Z := Z.quot (Qnum x) (Z.pos (Qden x)).

(** Ceiling of the true quotient [a / b] of two integers, [b > 0]. *)
Definition ceil_div (a b : Z) : Z := - ((- a) / b).

Record DemandRow : Type := mkDemand {
  dm_Year : Z; dm_Month : Z; dm_Product : string; dm_Quantity : Q }.

Record TimesRow : Type := mkTimes {
  tm_Product : string; tm_Subsystem : string; tm_Time : Q }.

Record StationRow : Type := mkStation {
  stn_Product : string; stn_Subsystem : string; stn_Workcell : string }.

Record TrainingRow : Type := mkTraining {
  tr_Operator : string; tr_Product : string; tr_Subsystem : string;
  tr_Trained : string }.

(** A row of the weekly pool: [Time] comes from a left merge and is
    missing when no row of the time table matches. *)
Record PoolRow : Type := mkPool {
  pl_Product : string; pl_Subsystem : string; pl_Time : option Q }.

(** A row of a task table: [(Product, Subsystem, RemainingTime)]. *)
Record TaskRow : Type := mkTask {
  Product : string; Subsystem : string; RemainingTime : option Q }.

Definition same_key (p s p' s' : string) : bool :=
  bool_decide (p = p') && bool_decide (s = s').

(** [left.merge(right, on=["Product", "Subsystem"], how="left")]: every
    left row is paired with each matching right row, in the order of the
    right table, and once with a missing value when none matches. *)
Definition merge_left {L R C : Type} (matches : L -> R -> bool)
    (pair : L -> option R -> C) (left : list L) (right : list R) : list C :=
  flat_map (fun l =>
    match filter (fun r => matches l r = true) right with
    | [] => [pair l None]
    | rs => map (fun r => pair l (Some r)) rs
    end) left.

(** ** Demand and tasks *)

Inductive exn : Type := KeyError.

Inductive outcome (A : Type) : Type :=
| Returned (a : A)
| Raised (e : exn).
Arguments Returned {A} a.
Arguments Raised {A} e.

(** [times_df.groupby("Product")["Subsystem"].apply(list).to_dict()]. *)
Definition subs_by_prod (times_df : list TimesRow) : gmap string (list string) :=
  fold_left (fun m r =>
    <[tm_Product r := default [] (m !! tm_Product r) ++ [tm_Subsystem r]]> m)
    times_df ∅.

(** [int(np.ceil(qty / max(1, len(biz_days))))]. *)
Definition daily_target (qty : Z) (n_biz_days : nat) : Z :=
  ceil_div qty (Z.max 1 (Z.of_nat n_biz_days)).

(** The rows appended for one demand record.  The quantity is the ceiling
    of the exact product [Quantity * demand_multiplier]; the source takes
    [np.ceil] of the binary64 product, which can differ by one unit when
    the product is within rounding of a whole number. *)
Definition pool_rows_of (subs : gmap string (list string)) (n_biz_days : nat)
    (demand_multiplier : Q) (r : DemandRow) : list (string * string) :=
  let prod := dm_Product r in
  let qty := Qceiling (dm_Quantity r * demand_multiplier) in
  match subs !! prod with
  | None => []
  | Some ss =>
      concat (replicate (Z.to_nat (daily_target qty n_biz_days * 5))
                (map (fun sub => (prod, sub)) ss))
  end.

(** [demand_df[(demand_df["Year"] == year) & (demand_df["Month"] == month)]]. *)
Definition month_demand (demand_df : list DemandRow) (y m : Z) : list DemandRow :=
  filter (fun r => (dm_Year r =? y) && (dm_Month r =? m) = true) demand_df.

Definition make_weekly_task_pool (demand_df : list DemandRow)
    (times_df : list TimesRow) (target_date : date) (demand_multiplier : Q)
  : outcome (list PoolRow) :=
  let m := month target_date in
  let y := year target_date in
  let biz_days := business_days_in_month y m in
  match month_demand demand_df y m with
  | [] => Returned []
  | _ =>
      let subs := subs_by_prod times_df in
      let rows :=
        flat_map (pool_rows_of subs (length biz_days) demand_multiplier)
          (month_demand demand_df y m) in
      match rows with
      | [] => Raised KeyError   (* a frame without columns has no merge key *)
      | _ =>
          Returned
            (merge_left
               (fun '(p, s) t => same_key p s (tm_Product t) (tm_Subsystem t))
               (fun '(p, s) t => mkPool p s (tm_Time <$> t))
               rows times_df)
      end
  end.

(** ** Scheduling core *)

(** An occupied interval [(start, end)], both datetimes in minutes. *)
Definition interval : Type := Z * Z.

Record Assignment : Type := mkAssignment {
  operator : string; product : string; subsystem : string;
  workcell : option string; start : Z; end_ : Z; duration_h : Q }.

Definition can_place (new_start new_end : Z) (intervals : list interval) : bool :=
  forallb (fun '(s, e) => (new_end <=? s) || (new_start >=? e)) intervals.

(** The [while] loop of [place_next_slot].  [None] stands for running out
    of [fuel]; [place_next_slot] supplies enough of it for a positive
    step ([slot_loop_fuel]). *)
Fixpoint slot_loop (fuel : nat) (t dur_min step_min end_of_day : Z)
    (occupied : list interval) : option (option interval) :=
  match fuel with
  | O => None
  | S k =>
      if t + dur_min <=? end_of_day then
        if can_place t (t + dur_min) occupied then Some (Some (t, t + dur_min))
        else slot_loop k (t + step_min) dur_min step_min end_of_day occupied
      else Some None
  end.

(** The requested minutes [int(duration_h * 60)] truncate the exact
    product; the source truncates the binary64 product, which can reach
    the next whole minute when the exact one is within rounding of it. *)
Definition place_next_slot (day_start max_minutes : Z) (duration_h : Q)
    (step_min : Z) (occupied : list interval) : option interval :=
  let dur_min := round_up_to_step (int_of_Q (duration_h * 60)) step_min in
  if dur_min =? 0 then None
  else
    let end_of_day := day_start + max_minutes in
    match slot_loop (S (S (Z.to_nat (max_minutes - dur_min)))) day_start dur_min
            step_min end_of_day occupied with
    | Some r => r
    | None => None
    end.

(** Stable sort by descending key ([sorted(..., reverse=True)] and
    [sort_values(..., ascending=False)]); [lt x y] says that the key of
    [x] is below the key of [y].  pandas leaves the order of equal keys to
    the sorting algorithm; here they keep the order of the table. *)
Fixpoint insert_desc {A : Type} (lt : A -> A -> bool) (x : A) (l : list A)
  : list A :=
  match l with
  | [] => [x]
  | y :: l' => if lt x y then y :: insert_desc lt x l' else x :: y :: l'
  end.

Definition sort_desc {A : Type} (lt : A -> A -> bool) (l : list A) : list A :=
  fold_right (insert_desc lt) [] l.

(** [list.sort()] on a list of [(start, end)] tuples. *)
Definition interval_ltb (a b : interval) : bool :=
  (fst a <? fst b) || ((fst a =? fst b) && (snd a <? snd b)).

Fixpoint insert_interval (x : interval) (l : list interval) : list interval :=
  match l with
  | [] => [x]
  | y :: l' => if interval_ltb y x then y :: insert_interval x l' else x :: y :: l'
  end.

Definition sort_intervals (l : list interval) : list interval :=
  fold_right insert_interval [] l.

(** [Series.unique()]: first occurrences, in order of appearance. *)
Fixpoint unique_from (seen l : list string) : list string :=
  match l with
  | [] => []
  | x :: l' =>
      if bool_decide (x ∈ seen) then unique_from seen l'
      else x :: unique_from (x :: seen) l'
  end.

Definition unique (l : list string) : list string := unique_from [] l.

(** Python's [min(a, b)], [max(a, b)] and [round(x, 2)] (ties to even).
    [round2] returns the decimal [n / 100]; the source returns the
    binary64 number nearest to it. *)
Definition min_h (a b : Q) : Q := if Qlt_le_dec b a then b else a.
Definition max_h (a b : Q) : Q := if Qlt_le_dec a b then b else a.

Definition round2 (x : Q) : Q :=
  let y := (x * 100)%Q in
  let f := Qfloor y in
  let r := (y - inject_Z f)%Q in
  let n := match (r ?= 1 # 2)%Q with
           | Lt => f
           | Gt => f + 1
           | Eq => if Z.even f then f else f + 1
           end in
  (n # 100)%Q.

(** The mutable state of one day: remaining minutes per operator, the
    occupied intervals per operator and per workcell, and the assignments
    committed so far (in commit order). *)
Record day_state : Type := mkState {
  avail_min_per_op : gmap string Z;
  occ_by_op : gmap string (list interval);
  occ_by_wc : gmap (option string) (list interval);
  assignments : list Assignment }.

(** A task row after the merge with the stations table and [dropna]. *)
Record DayTask : Type := mkDayTask {
  dt_Product : string; dt_Subsystem : string;
  dt_Workcell : option string; dt_RemainingTime : Q }.

Section DayScheduler.

Variable day_start : Z.
Variable base_minutes : Z.
Variable trained : list TrainingRow.
Variable available_operators : gset string.

(** Body of the loop over the candidate operators, after its [break]
    test.  [occ_by_op[op]] and [avail_min_per_op[op]] exist for every
    candidate, which is an available operator ([inv_keys], [inv_avail]):
    the defaults of these two lookups are never used. *)
Definition try_operator (prod sub : string) (wc : option string)
    (remain_h : Q) (op : string) (scheduled_this_task_h : Q)
    (st : day_state) : Q * day_state :=
  let op_avail_min := default 0 (avail_min_per_op st !! op) in
  if op_avail_min <? TIME_STEP_MIN then (scheduled_this_task_h, st)
  else
    let task_rem_h := (remain_h - scheduled_this_task_h)%Q in
    let op_avail_h := (inject_Z op_avail_min / 60)%Q in
    let schedulable_h := min_h task_rem_h op_avail_h in
    match place_next_slot day_start base_minutes schedulable_h TIME_STEP_MIN
            (default [] (occ_by_op st !! op)) with
    | None => (scheduled_this_task_h, st)
    | Some (cand_start, cand_end) =>
        (* occ_by_wc.setdefault(wc, []) *)
        let wcs := match occ_by_wc st !! wc with
                   | Some _ => occ_by_wc st
                   | None => <[wc := []]> (occ_by_wc st)
                   end in
        let wc_occ := default [] (wcs !! wc) in
        if can_place cand_start cand_end wc_occ then
          let duration_h :=
            (inject_Z ((cand_end - cand_start) * 60) / 3600)%Q in
          let used_min := int_of_Q (duration_h * 60) in
          ((scheduled_this_task_h + duration_h)%Q,
           {| avail_min_per_op :=
                <[op := op_avail_min - used_min]> (avail_min_per_op st);
              occ_by_op :=
                <[op := sort_intervals
                          (default [] (occ_by_op st !! op)
                             ++ [(cand_start, cand_end)])]> (occ_by_op st);
              occ_by_wc :=
                <[wc := sort_intervals
                          (wc_occ ++ [(cand_start, cand_end)])]> wcs;
              assignments :=
                assignments st
                  ++ [mkAssignment op prod sub wc cand_start cand_end
                        duration_h] |})
        else
          (scheduled_this_task_h,
           {| avail_min_per_op := avail_min_per_op st;
              occ_by_op := occ_by_op st;
              occ_by_wc := wcs;
              assignments := assignments st |})
    end.

(** The loop over the sorted candidates, with its [break]. *)
Fixpoint assign_ops (prod sub : string) (wc : option string) (remain_h : Q)
    (ops : list string) (scheduled_this_task_h : Q) (st : day_state)
  : Q * day_state :=
  match ops with
  | [] => (scheduled_this_task_h, st)
  | op :: rest =>
      if Qle_bool remain_h scheduled_this_task_h
      then (scheduled_this_task_h, st)
      else
        let '(h, st') :=
          try_operator prod sub wc remain_h op scheduled_this_task_h st in
        assign_ops prod sub wc remain_h rest h st'
  end.

Definition cand_ops (st : day_state) (prod sub : string) : list string :=
  let ops :=
    unique (map tr_Operator
              (filter (fun r => same_key prod sub (tr_Product r)
                                  (tr_Subsystem r) = true) trained)) in
  filter (fun op => op ∈ available_operators
                    ∧ 0 < default 0 (avail_min_per_op st !! op)) ops.

Definition sorted_ops (st : day_state) (ops : list string) : list string :=
  sort_desc (fun a b => default 0 (avail_min_per_op st !! a)
                        <? default 0 (avail_min_per_op st !! b)) ops.

(** Body of the loop over the task rows: the new state and the row
    appended to [remaining_rows], if any. *)
Definition schedule_task (st : day_state) (task : DayTask)
  : day_state * option TaskRow :=
  let prod := dt_Product task in
  let sub := dt_Subsystem task in
  let wc := dt_Workcell task in
  let remain_h := dt_RemainingTime task in
  let ops := cand_ops st prod sub in
  if bool_decide (ops = []) || Qle_bool remain_h 0
  then (st, Some (mkTask prod sub (Some remain_h)))
  else
    let '(scheduled_this_task_h, st') :=
      assign_ops prod sub wc remain_h (sorted_ops st ops) 0 st in
    let leftover_h := max_h 0 (round2 (remain_h - scheduled_this_task_h)) in
    (st', if Qlt_le_dec 0 leftover_h
          then Some (mkTask prod sub (Some leftover_h)) else None).

Fixpoint schedule_rows (tasks : list DayTask) (st : day_state)
    (remaining_rows : list TaskRow) : day_state * list TaskRow :=
  match tasks with
  | [] => (st, remaining_rows)
  | task :: rest =>
      let '(st', row) := schedule_task st task in
      schedule_rows rest st'
        (match row with
         | Some r => remaining_rows ++ [r]
         | None => remaining_rows
         end)
  end.

End DayScheduler.

Definition base_minutes_of (wd : Z) : Z :=
  if wd <? 4 then 480 else if wd =? 4 then 360 else 0.

(** [tasks.merge(stations[...], how="left").dropna(subset=["RemainingTime"])
    .sort_values("RemainingTime", ascending=False)]. *)
Definition day_tasks (tasks : list TaskRow) (stations : list StationRow)
  : list DayTask :=
  let merged :=
    merge_left
      (fun t s => same_key (Product t) (Subsystem t)
                    (stn_Product s) (stn_Subsystem s))
      (fun t s => (t, stn_Workcell <$> s)) tasks stations in
  let kept :=
    omap (fun '(t, wc) =>
            (fun h => mkDayTask (Product t) (Subsystem t) wc h)
              <$> RemainingTime t) merged in
  sort_desc (fun a b => if Qlt_le_dec (dt_RemainingTime a) (dt_RemainingTime b)
                        then true else false) kept.

Definition init_state (base_minutes : Z) (available_operators : gset string)
  : day_state :=
  {| avail_min_per_op := gset_to_gmap base_minutes available_operators;
     occ_by_op := gset_to_gmap [] available_operators;
     occ_by_wc := ∅;
     assignments := [] |}.

Definition schedule_day_with_remaining (target_date : date)
    (tasks : list TaskRow) (trainings : list TrainingRow)
    (stations : list StationRow) (available_operators : gset string)
  : list Assignment * list TaskRow :=
  let wd := weekday target_date in
  let base_minutes := base_minutes_of wd in
  if (5 <=? wd) || (base_minutes =? 0) then ([], tasks)
  else
    let trained :=
      filter (fun r => tr_Trained r = "Y"%string) trainings in
    let '(st, remaining_rows) :=
      schedule_rows (dt_combine target_date START_TIME) base_minutes trained
        available_operators (day_tasks tasks stations)
        (init_state base_minutes available_operators) [] in
    (assignments st, remaining_rows).

(** ** Weekly proposals *)

Definition key_ltb (a b : string * string) : bool :=
  match String.compare (fst a) (fst b) with
  | Lt => true
  | Gt => false
  | Eq => match String.compare (snd a) (snd b) with Lt => true | _ => false end
  end.

Fixpoint insert_key (x : string * string) (l : list (string * string))
  : list (string * string) :=
  match l with
  | [] => [x]
  | y :: l' =>
      if key_ltb x y then x :: y :: l'
      else if key_ltb y x then y :: insert_key x l'
      else y :: l'
  end.

(** [_aggregate_remaining] on the weekly pool, whose duration column is
    [Time] (the branch for a [RemainingTime] column is not taken by the
    generator and not modelled): one row per [(Product, Subsystem)] group,
    groups in key order, each with the sum of the durations present in
    the group.  The sums are exact here; pandas adds in binary64. *)
Definition _aggregate_remaining (tasks : list PoolRow) : list TaskRow :=
  let keys :=
    fold_right insert_key [] (map (fun r => (pl_Product r, pl_Subsystem r)) tasks) in
  map (fun '(p, s) =>
         mkTask p s
           (Some (fold_left Qplus
                    (omap (fun r => if same_key p s (pl_Product r) (pl_Subsystem r)
                                    then pl_Time r else None) tasks)
                    0%Q)))
      keys.

#[global] Instance date_eq_dec : EqDecision date.
Proof. solve_decision. Defined.

#[global] Instance date_countable : Countable date.
Proof.
  refine (inj_countable' (fun d => (year d, month d, day d))
            (fun t => mkdate t.1.1 t.1.2 t.2) _).
  intros []; reflexivity.
Defined.

(** The tables returned by [load_data] that the scheduler reads. *)
Record tables : Type := mkTables {
  demand : list DemandRow;
  times : list TimesRow;
  stations : list StationRow;
  training : list TrainingRow }.

(** A record of the proposal output; [Date], [Start] and [End] are kept as
    values (the day ordinal and the datetimes), not as formatted text. *)
Record OutRow : Type := mkOut {
  o_Date : Z; o_ProposalId : Z; o_Operator : string; o_Product : string;
  o_Subsystem : string; o_Workcell : option string; o_Start : Z; o_End : Z;
  o_DurationHours : Q }.

(** One turn of the loop over the five days of the week. *)
Definition week_step (data : tables) (monday : date)
    (available_operators_by_day : gmap date (gset string))
    (acc : list Assignment * list TaskRow) (offset : Z)
  : list Assignment * list TaskRow :=
  let '(all_assignments, remaining) := acc in
  let d := add_days monday offset in
  let avail_ops := default ∅ (available_operators_by_day !! d) in
  if bool_decide (avail_ops = ∅) || bool_decide (remaining = []) then acc
  else
    let tasks_with_times :=
      merge_left
        (fun t r => same_key (Product t) (Subsystem t)
                      (tm_Product r) (tm_Subsystem r))
        (fun t (_ : option TimesRow) => t) remaining (times data) in
    let '(daily_assigns, rem_after) :=
      schedule_day_with_remaining d tasks_with_times (training data)
        (stations data) avail_ops in
    (all_assignments ++ daily_assigns, rem_after).

Definition out_row (i : Z) (a : Assignment) : OutRow :=
  {| o_Date := start a / 1440 + 1; o_ProposalId := i;
     o_Operator := operator a; o_Product := product a;
     o_Subsystem := subsystem a; o_Workcell := workcell a;
     o_Start := start a; o_End := end_ a;
     o_DurationHours := round2 (duration_h a) |}.

(** The record set of proposal [i], drawn with multiplier [dem_mult]. *)
Definition proposal (data : tables) (monday : date)
    (available_operators_by_day : gmap date (gset string))
    (i : Z) (dem_mult : Q) : outcome (list OutRow) :=
  match make_weekly_task_pool (demand data) (times data) monday dem_mult with
  | Raised e => Raised e
  | Returned [] => Returned []
  | Returned base_tasks =>
      let remaining := _aggregate_remaining base_tasks in
      let '(all_assignments, _) :=
        fold_left (week_step data monday available_operators_by_day)
          [0; 1; 2; 3; 4] ([], remaining) in
      Returned (map (out_row i) all_assignments)
  end.

Fixpoint proposals_from (data : tables) (monday : date)
    (available_operators_by_day : gmap date (gset string))
    (draw : Z -> Q) (i : Z) (n : nat)
  : outcome (list (date * Z * list OutRow)) :=
  match n with
  | O => Returned []
  | S k =>
      match proposal data monday available_operators_by_day i (draw i) with
      | Raised e => Raised e
      | Returned rows =>
          match proposals_from data monday available_operators_by_day draw
                  (i + 1) k with
          | Raised e => Raised e
          | Returned files => Returned ((monday, i, rows) :: files)
          end
      end
  end.

(** [generate_weekly_proposals] on tables already loaded.  [draw i] is the
    demand multiplier drawn for proposal [i]; the result lists the record
    sets written, each identified by [(week start, proposal index)]. *)
Definition generate_weekly_proposals (data : tables) (target_date : date)
    (available_operators_by_day : gmap date (gset string))
    (n_proposals : Z) (draw : Z -> Q)
  : outcome (list (date * Z * list OutRow)) :=
  let monday := week_monday target_date in
  proposals_from data monday available_operators_by_day draw 1
    (Z.to_nat n_proposals).

(** ** Specification vocabulary *)

(** Two assignments do not overlap as half-open intervals [[Start, End)]. *)
Definition no_overlap (a b : Assignment) : Prop :=
  end_ a <= start b \/ end_ b <= start a.

(** Minutes and hours of the assignments of operator [op] in [l]. *)
Fixpoint op_minutes (op : string) (l : list Assignment) : Z :=
  match l with
  | [] => 0
  | a :: l' =>
      (if bool_decide (operator a = op) then end_ a - start a else 0)
      + op_minutes op l'
  end.

Fixpoint op_hours (op : string) (l : list Assignment) : Q :=
  match l with
  | [] => 0%Q
  | a :: l' =>
      ((if bool_decide (operator a = op) then duration_h a else 0)
       + op_hours op l')%Q
  end.

(** Total hours of a list of assignments. *)
Definition hours (l : list Assignment) : Q :=
  fold_right (fun a h => (duration_h a + h)%Q) 0%Q l.

(** The hours carried forward by the row appended to [remaining_rows]. *)
Definition carried_hours (row : option TaskRow) : Q :=
  match row with
  | Some r => default 0%Q (RemainingTime r)
  | None => 0%Q
  end.

(** How the hours of a task are accounted for, with the tolerance of
    0.01 h of the specification: the carried remainder is rounded to two
    decimals, so scheduled plus carried hours may fall below the input by
    the rounding; a chunk is rounded up to the grid, so less than one step
    (0.25 h) may be added; nothing beyond the tolerance is added when the
    scheduled hours stay within the input.  The rounding itself moves the
    remainder by at most 0.005 h; the tolerance leaves room for the
    representation of the rounded remainder as a binary64 number. *)
Definition conserved (remain_h scheduled carried : Q) : Prop :=
  (remain_h - (1 # 100) <= scheduled + carried)%Q
  /\ (scheduled + carried < remain_h + (1 # 4))%Q
  /\ ((scheduled <= remain_h)%Q ->
      (scheduled + carried <= remain_h + (1 # 100))%Q).

(** A year and a month for which [business_days_in_month] returns in the
    source: [date(year, month, 1)] exists (years 1 to 9999, months 1 to
    12), and the loop can step past the last day of the month, which
    December 9999 does not allow ([date.max] has no next day).  Outside
    this range the source raises [ValueError] or [OverflowError]. *)
Definition month_in_range (y m : Z) : Prop :=
  1 <= y <= 9999 /\ 1 <= m <= 12 /\ ~ (y = 9999 /\ m = 12).

(** The rows of [tasks.merge(stations, how="left")] that have a
    RemainingTime, in the order of the merge: what the day scheduler sorts
    and then processes. *)
Definition merged_tasks (tasks : list TaskRow) (stations : list StationRow)
  : list DayTask :=
  omap (fun '(t, wc) =>
          (fun h => mkDayTask (Product t) (Subsystem t) wc h)
            <$> RemainingTime t)
    (merge_left
       (fun t s => same_key (Product t) (Subsystem t)
                     (stn_Product s) (stn_Subsystem s))
       (fun t s => (t, stn_Workcell <$> s)) tasks stations).

(** A positive RemainingTime for which [int(duration_h * 60)] is 0 in the
    code: the product is formed in binary64, which rounds to the nearest
    representable number, and the largest one below 1 is 1 - 2^-53; a
    product of at most that value is therefore still below 1 after
    rounding, while a product between it and 1 may be rounded to 1. *)
Definition under_a_minute (h : Q) : Prop :=
  (0 < h)%Q /\ (h * 60 <= 1 - (1 # 9007199254740992))%Q.

(** [(op, prod, sub)] is a row of the training table marked trained. *)
Definition trained_for (trainings : list TrainingRow) (op prod sub : string)
  : Prop :=
  exists r, r ∈ trainings /\ tr_Trained r = "Y"%string
            /\ tr_Operator r = op /\ tr_Product r = prod /\ tr_Subsystem r = sub.

(** [t] lies on the grid of step [TIME_STEP_MIN] that starts at [origin]. *)
Definition on_grid (origin t : Z) : Prop :=
  exists k, 0 <= k /\ t = origin + k * TIME_STEP_MIN.

(** ** The invariant of a scheduling day *)

Section DayInvariant.

Variable day_start : Z.
Variable base_minutes : Z.
Variable trained : list TrainingRow.
Variable available_operators : gset string.

(** [op] may work on [(prod, sub)]: available, with a trained row. *)
Definition eligible (prod sub op : string) : Prop :=
  op ∈ available_operators
  /\ exists r, r ∈ trained /\ tr_Operator r = op
               /\ tr_Product r = prod /\ tr_Subsystem r = sub.

(** What holds of every committed assignment. *)
Record asg_ok (a : Assignment) : Prop := {
  ok_start : on_grid day_start (start a);
  ok_len : exists n, 0 < n /\ end_ a = start a + n * TIME_STEP_MIN;
  ok_end : end_ a <= day_start + base_minutes;
  ok_hours : duration_h a == inject_Z (end_ a - start a) / 60;
  ok_trained :
    exists r, r ∈ trained /\ tr_Operator r = operator a
              /\ tr_Product r = product a /\ tr_Subsystem r = subsystem a;
  ok_available : operator a ∈ available_operators }.

(** The state of the day agrees with the assignments committed so far. *)
Record day_inv (st : day_state) : Prop := {
  inv_asg : Forall asg_ok (assignments st);
  inv_occ_op : forall op iv,
    iv ∈ default [] (occ_by_op st !! op) <->
    exists a, a ∈ assignments st /\ operator a = op /\ (start a, end_ a) = iv;
  inv_occ_wc : forall wc iv,
    iv ∈ default [] (occ_by_wc st !! wc) <->
    exists a, a ∈ assignments st /\ workcell a = wc /\ (start a, end_ a) = iv;
  inv_clash : forall (i j : nat) a b,
    (i < j)%nat -> assignments st !! i = Some a -> assignments st !! j = Some b ->
    operator a = operator b \/ workcell a = workcell b -> no_overlap a b;
  inv_avail : forall op, op ∈ available_operators ->
    avail_min_per_op st !! op
    = Some (base_minutes - op_minutes op (assignments st));
  inv_cap : forall op, op_minutes op (assignments st) <= base_minutes;
  inv_first : forall a, a ∈ assignments st ->
    exists a0, a0 ∈ assignments st /\ operator a0 = operator a
               /\ start a0 = day_start;
  inv_keys : forall op, op ∈ available_operators ->
    is_Some (occ_by_op st !! op) }.

(** A step that commits nothing: the state is left as it was, up to
    workcell keys created empty by [setdefault]. *)
Definition same_day (st st' : day_state) : Prop :=
  assignments st' = assignments st
  /\ avail_min_per_op st' = avail_min_per_op st
  /\ occ_by_op st' = occ_by_op st
  /\ forall wc, default [] (occ_by_wc st' !! wc)
                = default [] (occ_by_wc st !! wc).

(** A step that commits the assignment [a] for a task with [remain_h]
    hours, of which [sched] were scheduled before and [sched'] after. *)
Record committed (remain_h sched : Q) (st st' : day_state)
    (a : Assignment) (sched' : Q) : Prop := {
  cm_avail : TIME_STEP_MIN <= default 0 (avail_min_per_op st !! operator a);
  cm_len : exists n, 0 < n /\ end_ a = start a + n * TIME_STEP_MIN;
  cm_start : on_grid day_start (start a);
  cm_end : end_ a <= day_start + base_minutes;
  cm_hours : duration_h a == inject_Z (end_ a - start a) / 60;
  cm_free_op :
    can_place (start a) (end_ a)
      (default [] (occ_by_op st !! operator a)) = true;
  cm_free_wc :
    can_place (start a) (end_ a)
      (default [] (occ_by_wc st !! workcell a)) = true;
  cm_first :
    default [] (occ_by_op st !! operator a) = [] -> start a = day_start;
  cm_over : (duration_h a < remain_h - sched + (1 # 4))%Q;
  cm_fit :
    (TIME_STEP_MIN | default 0 (avail_min_per_op st !! operator a)) ->
    end_ a - start a <= default 0 (avail_min_per_op st !! operator a);
  cm_sched : sched' = (sched + duration_h a)%Q;
  cm_asg : assignments st' = assignments st ++ [a];
  cm_avail' :
    avail_min_per_op st'
    = <[operator a := default 0 (avail_min_per_op st !! operator a)
                      - (end_ a - start a)]> (avail_min_per_op st);
  cm_occ_op : forall op iv,
    iv ∈ default [] (occ_by_op st' !! op) <->
    iv ∈ default [] (occ_by_op st !! op)
    \/ (op = operator a /\ iv = (start a, end_ a));
  cm_occ_wc : forall wc iv,
    iv ∈ default [] (occ_by_wc st' !! wc) <->
    iv ∈ default [] (occ_by_wc st !! wc)
    \/ (wc = workcell a /\ iv = (start a, end_ a));
  cm_keys : forall op,
    is_Some (occ_by_op st !! op) -> is_Some (occ_by_op st' !! op) }.

End DayInvariant.

(** The assignments [seg] and the carried row [c] that the scheduler
    produced for the task row [task] account for the hours of the task. *)
Definition accounted (task : DayTask) (seg : list Assignment)
    (c : option TaskRow) : Prop :=
  Forall (fun a => product a = dt_Product task
                   /\ subsystem a = dt_Subsystem task
                   /\ workcell a = dt_Workcell task) seg
  /\ (forall r, c = Some r ->
        Product r = dt_Product task /\ Subsystem r = dt_Subsystem task)
  /\ conserved (dt_RemainingTime task) (hours seg) (carried_hours c).

(** Total of the [RemainingTime] column of a task table. *)
Definition carried_total (rows : list TaskRow) : Q :=
  fold_right (fun r h => (default 0 (RemainingTime r) + h)%Q) 0%Q rows.

(** ** Worked inputs

    A Monday (2021-02-01, in a month of 20 business days), two operators,
    two subsystems of one product built at the same workcell. *)

Definition demo_monday : date := mkdate 2021 2 1.
Definition demo_tuesday : date := mkdate 2021 2 2.

Definition demo_training : list TrainingRow :=
  [mkTraining "op1" "P1" "S1" "Y"; mkTraining "op1" "P1" "S2" "Y";
   mkTraining "op2" "P1" "S1" "Y"].

Definition demo_stations : list StationRow :=
  [mkStation "P1" "S1" "W1"; mkStation "P1" "S2" "W1"].

Definition demo_operators : gset string := {["op1"; "op2"]}.

Definition demo_tasks : list TaskRow :=
  [mkTask "P1" "S1" (Some (2 # 1)%Q); mkTask "P1" "S2" (Some (1 # 1)%Q)].

(** 08:00 of [demo_monday]. *)
Definition demo_start : Z := 1062462720.

Definition demo_a1 : Assignment :=
  mkAssignment "op1" "P1" "S1" (Some "W1"%string) demo_start (demo_start + 120)
    (7200 # 3600).

Definition demo_a2 : Assignment :=
  mkAssignment "op1" "P1" "S2" (Some "W1"%string) (demo_start + 120)
    (demo_start + 180) (3600 # 3600).



Definition demo_avail : gmap date (gset string) :=
  <[demo_monday := demo_operators]> (<[demo_tuesday := demo_operators]> ∅).


(** A month of demand for the worked week, and a table without rows for
    its month. *)
Definition demo_demand : list DemandRow := [mkDemand 2021 2 "P1" 20].
Definition demo_times : list TimesRow := [mkTimes "P1" "S1" (5 # 2)].

Definition demo_other_month : tables :=
  mkTables [mkDemand 2021 3 "P1" 20] demo_times demo_stations demo_training.

(** ** Vocabulary of the further properties *)

(** A date that [datetime.date] can hold, the year range apart. *)
Definition valid_date (d : date) : Prop :=
  1 <= month d <= 12 /\ 1 <= day d <= days_in_month (year d) (month d).

(** The number of [k] in [1..n] whose day falls on Monday to Friday when
    day [k] has weekday [(c + k) mod 7]. *)
Definition count_weekdays (c n : Z) : nat :=
  length (filter (fun k => (c + k) mod 7 < 5) (seqZ 1 n)).

(** Sum of [f] over a list, and the hours of a pool. *)
Definition qsum {A : Type} (f : A -> Q) (l : list A) : Q :=
  fold_right (fun x h => (f x + h)%Q) 0%Q l.

Definition pool_hours (tasks : list PoolRow) : Q :=
  qsum (fun r => default 0%Q (pl_Time r)) tasks.

Definition key_lt (a b : string * string) : Prop := key_ltb a b = true.

(** No two assignments at different positions of [l] that share the
    operator or the workcell overlap. *)
Definition clash_free (l : list Assignment) : Prop :=
  forall (i j : nat) a b,
    (i < j)%nat -> l !! i = Some a -> l !! j = Some b ->
    operator a = operator b \/ workcell a = workcell b -> no_overlap a b.

(** [a] lies in the work window of day [d] and its operator is in
    [available]. *)
Definition in_day (d : date) (available : gset string) (a : Assignment)
  : Prop :=
  dt_combine d START_TIME <= start a /\ start a < end_ a
  /\ end_ a <= dt_combine d START_TIME + base_minutes_of (weekday d)
  /\ operator a ∈ available
  /\ (TIME_STEP_MIN | end_ a - start a)
  /\ duration_h a == inject_Z (end_ a - start a) / 60.

(** What one turn of the week loop appends: nothing, or the assignments of
    the day scheduler for that day and its available operators. *)
Definition day_segment (monday : date) (avail : gmap date (gset string))
  (offset : Z) (seg : list Assignment) : Prop :=
  clash_free seg
  /\ Forall (in_day (add_days monday offset)
               (default ∅ (avail !! add_days monday offset))) seg.

(** A week with demand: 5 tasks of 2.5 h, of which 8 h are built on Monday
    and 4.5 h on Tuesday. *)
Definition demo_week_tables : tables :=
  mkTables demo_demand demo_times demo_stations demo_training.

Definition demo_r1 : OutRow :=
  mkOut 737822 1 "op1" "P1" "S1" (Some "W1"%string) demo_start
    (demo_start + 480) (800 # 100).

Definition demo_r2 : OutRow :=
  mkOut 737823 1 "op1" "P1" "S1" (Some "W1"%string) (demo_start + 1440)
    (demo_start + 1710) (450 # 100).

(** The assignments of [l], in order, follow one another without a gap,
    the first starting at [t]. *)
Fixpoint back_to_back (t : Z) (l : list Assignment) : Prop :=
  match l with
  | [] => True
  | a :: l' => start a = t /\ back_to_back (end_ a) l'
  end.

(** The assignments of operator [op] in [l], in commit order. *)
Definition of_operator (op : string) (l : list Assignment) : list Assignment :=
  filter (fun a => operator a = op) l.

(** Every operator's assignments follow one another from the day start. *)
Definition day_chain (day_start : Z) (st : day_state) : Prop :=
  forall op, back_to_back day_start (of_operator op (assignments st)).

(** [_isoweek1monday] and the week of [date.isocalendar()], as
    [datetime] computes them from ordinals. *)
Definition isoweek1monday (y : Z) : Z :=
  let firstday := toordinal (mkdate y 1 1) in
  let firstweekday := (firstday + 6) mod 7 in
  let week1monday := firstday - firstweekday in
  if 3 <? firstweekday then week1monday + 7 else week1monday.

Definition iso_week (d : date) : Z :=
  let today := toordinal d in
  let week := (today - isoweek1monday (year d)) / 7 in
  if week <? 0 then (today - isoweek1monday (year d - 1)) / 7 + 1
  else if (52 <=? week) && (isoweek1monday (year d + 1) <=? today) then 0 + 1
  else week + 1.

(** [sorted({...})] on week numbers: ascending, each once. *)
Fixpoint insert_week (x : Z) (l : list Z) : list Z :=
  match l with
  | [] => [x]
  | y :: l' =>
      if x <? y then x :: y :: l'
      else if y <? x then y :: insert_week x l'
      else y :: l'
  end.

Definition iso_weeks (days : list date) : list Z :=
  fold_right insert_week [] (map iso_week days).

Record SummaryRow : Type := mkSummary {
  s_Month : Z; s_Product : string; s_ProductDesc : string;
  s_MonthlyQty : Z; s_Week : Z; s_WeeklyQty : Z }.

(** [summarize_demand] on a demand table already loaded.  A row is paired
    with its [ProductDesc] cell, [None] when the table has no such column
    ([r.get("ProductDesc", "")]). *)
Definition summarize_demand (dmd : list (DemandRow * option string))
    (y m : Z) : list SummaryRow :=
  let month_df :=
    filter (fun r => (dm_Year r.1 =? y) && (dm_Month r.1 =? m) = true) dmd in
  match month_df with
  | [] => []
  | _ =>
      let days := business_days_in_month y m in
      let weeks := iso_weeks days in
      flat_map (fun r =>
        let monthly := int_of_Q (dm_Quantity r.1) in
        let per_week :=
          ceil_div monthly (Z.max 1 (Z.of_nat (length weeks))) in
        map (fun ww => mkSummary m (dm_Product r.1) (default ""%string r.2)
                         monthly ww per_week) weeks) month_df
  end.

(** [sum([8.0, 8.0, 8.0, 8.0, 6.0][:wd])]. *)
Definition hours_before (wd : Z) : Q :=
  fold_right Qplus 0%Q (take (Z.to_nat wd) [8; 8; 8; 8; 6]%Q).

(** [cum_hours(dt)] of the dashboard, [dt] a datetime in minutes: the
    hours of the working days before the day of [dt], plus the hours from
    08:00 of that day to [dt]. *)
Definition cum_hours (dt : Z) : Q :=
  let wd := (dt / 1440 + 1 + 6) mod 7 in
  let within := (inject_Z ((dt - (dt / 1440 * 1440 + 8 * 60)) * 60) / 3600)%Q in
  (hours_before wd + within)%Q.

(** ** Binary64 arithmetic of the source

    The scheduler computes hours with Python floats, which the
    definitions above model as exact rationals.  The definitions below
    evaluate single expressions of the source in binary64, to mark the
    inputs at which the exact model and the source part ways. *)

(** The exact value of a finite binary64 number. *)
Definition b64_value (x : float) : option Q :=
  match Prim2SF x with
  | S754_zero _ => Some 0%Q
  | S754_finite sign m e =>
      let v := if 0 <=? e then inject_Z (Z.pos m * 2 ^ e)
               else (Z.pos m # Z.to_pos (2 ^ (- e)))%Q in
      Some (if sign then (- v)%Q else v)
  | _ => None
  end.

(** [round_up_to_step(int(duration_h * 60), step_min)], the slot length of
    [place_next_slot], with the product formed in binary64 and truncated
    by [int]. *)
Definition b64_slot_minutes (duration_h : float) (step_min : Z) : option Z :=
  (fun q => round_up_to_step (int_of_Q q) step_min)
    <$> b64_value (duration_h * 60)%float.

(** ** Rounding and truncation *)

Lemma round_up_multiple m s : exists k, round_up_to_step m s = k * s.
Proof. unfold round_up_to_step. eauto. Qed.

Lemma round_up_bounds m s :
  0 < s -> m <= round_up_to_step m s < m + s.
Proof.
  intros Hs. unfold round_up_to_step.
  pose proof (Z.div_mod (- m) s ltac:(lia)) as E.
  pose proof (Z.mod_pos_bound (- m) s Hs). nia.
Qed.

Lemma round_up_exact k s : 0 < s -> round_up_to_step (k * s) s = k * s.
Proof.
  intros Hs. unfold round_up_to_step.
  replace (- (k * s)) with ((- k) * s) by lia.
  rewrite Z.div_mul by lia. lia.
Qed.

Lemma round_up_mono m n s :
  0 < s -> m <= n -> round_up_to_step m s <= round_up_to_step n s.
Proof.
  intros Hs Hmn. unfold round_up_to_step.
  assert ((- n) / s <= (- m) / s) by (apply Z.div_le_mono; lia). nia.
Qed.

Lemma int_of_Q_nonneg (x : Q) : (0 <= x)%Q -> int_of_Q x = Qfloor x.
Proof.
  destruct x as [n d]. unfold Qle, int_of_Q, Qfloor. simpl. intros H.
  apply Z.quot_div_nonneg; lia.
Qed.

Lemma int_of_Q_inject (x : Q) (d : Z) : x == inject_Z d -> int_of_Q x = d.
Proof.
  destruct x as [n p]. unfold Qeq, int_of_Q. simpl. intros H.
  replace n with (d * Z.pos p) by lia. apply Z.quot_mul. lia.
Qed.

Lemma used_min_exact (d : Z) :
  int_of_Q (inject_Z (d * 60) / 3600 * 60) = d.
Proof.
  apply int_of_Q_inject. rewrite inject_Z_mult. field.
Qed.

Lemma min_h_le_l a b : (min_h a b <= a)%Q.
Proof. unfold min_h. destruct (Qlt_le_dec b a); [by apply Qlt_le_weak | apply Qle_refl]. Qed.

Lemma min_h_le_r a b : (min_h a b <= b)%Q.
Proof. unfold min_h. destruct (Qlt_le_dec b a); [apply Qle_refl | done]. Qed.

Lemma min_h_pos a b : (0 < a)%Q -> (0 < b)%Q -> (0 < min_h a b)%Q.
Proof. unfold min_h. by destruct (Qlt_le_dec b a). Qed.

Lemma round2_spec x :
  exists n : Z, round2 x = (n # 100)%Q
    /\ (inject_Z n - (1 # 2) <= x * 100 <= inject_Z n + (1 # 2))%Q.
Proof.
  unfold round2.
  pose proof (Qfloor_le (x * 100)) as Hlo.
  pose proof (Qlt_floor (x * 100)) as Hhi.
  rewrite inject_Z_plus in Hhi. change (inject_Z 1) with 1%Q in Hhi.
  generalize dependent (Qfloor (x * 100)). intros f Hlo Hhi.
  generalize dependent (x * 100)%Q. intros y Hlo Hhi.
  destruct (y - inject_Z f ?= 1 # 2)%Q eqn:E.
  - apply Qeq_alt in E.
    destruct (Z.even f); eexists; (split; [reflexivity |]).
    + lra.
    + rewrite inject_Z_plus. change (inject_Z 1) with 1%Q. lra.
  - apply Qlt_alt in E. eexists; split; [reflexivity |]. lra.
  - apply Qgt_alt in E. eexists; split; [reflexivity |].
    rewrite inject_Z_plus. change (inject_Z 1) with 1%Q. lra.
Qed.

(** ** The slot search *)

Lemma can_place_spec s e occ :
  can_place s e occ = true <->
  forall iv, iv ∈ occ -> e <= iv.1 \/ iv.2 <= s.
Proof.
  unfold can_place. rewrite forallb_forall. split.
  - intros H [a b] Hin. apply list_elem_of_In in Hin.
    specialize (H _ Hin). simpl in *. lia.
  - intros H [a b] Hin. apply list_elem_of_In in Hin.
    specialize (H _ Hin). simpl in *. lia.
Qed.

Lemma slot_loop_some fuel t dur step eod occ s e :
  slot_loop fuel t dur step eod occ = Some (Some (s, e)) ->
  (exists k : nat, s = t + Z.of_nat k * step)
  /\ e = s + dur /\ e <= eod /\ can_place s e occ = true
  /\ (occ = [] -> s = t).
Proof.
  revert t. induction fuel as [| fuel IH]; intros t; simpl; [done |].
  destruct (t + dur <=? eod) eqn:Hfit; [| done].
  destruct (can_place t (t + dur) occ) eqn:Hfree.
  - intros [= <- <-]. split; [exists 0%nat; lia |].
    repeat split; try done; lia.
  - intros H. destruct (IH _ H) as ([k Hk] & He & Hle & Hcp & Hnil).
    split; [exists (S k); lia |]. repeat split; try done.
    intros ->. simpl in Hfree. done.
Qed.



Lemma place_next_slot_some day_start max_minutes h step occ s e :
  place_next_slot day_start max_minutes h step occ = Some (s, e) ->
  round_up_to_step (int_of_Q (h * 60)) step <> 0
  /\ (exists k : nat, s = day_start + Z.of_nat k * step)
  /\ e = s + round_up_to_step (int_of_Q (h * 60)) step
  /\ e <= day_start + max_minutes
  /\ can_place s e occ = true
  /\ (occ = [] -> s = day_start).
Proof.
  unfold place_next_slot.
  generalize (round_up_to_step (int_of_Q (h * 60)) step). intros dur H.
  destruct (dur =? 0) eqn:Hz; [done |].
  split; [lia |].
  destruct (slot_loop _ _ _ _ _ _) as [[[s' e'] |] |] eqn:Hloop; try done.
  injection H as -> ->. by apply slot_loop_some in Hloop.
Qed.


(** ** Sums over assignments, sorted lists *)

Lemma op_minutes_app op l1 l2 :
  op_minutes op (l1 ++ l2) = op_minutes op l1 + op_minutes op l2.
Proof. induction l1 as [| a l1 IH]; simpl; lia. Qed.

Lemma op_hours_app op l1 l2 :
  op_hours op (l1 ++ l2) == op_hours op l1 + op_hours op l2.
Proof.
  induction l1 as [| a l1 IH]; simpl; [ring | rewrite IH; ring].
Qed.

Lemma hours_app l1 l2 : hours (l1 ++ l2) == hours l1 + hours l2.
Proof.
  unfold hours. induction l1 as [| a l1 IH]; simpl; [ring | rewrite IH; ring].
Qed.

Lemma insert_interval_elem x iv l :
  iv ∈ insert_interval x l <-> iv = x \/ iv ∈ l.
Proof.
  induction l as [| y l IH]; simpl.
  - rewrite elem_of_cons, elem_of_nil. tauto.
  - destruct (interval_ltb y x); rewrite !elem_of_cons; [rewrite IH |]; tauto.
Qed.

Lemma sort_intervals_elem iv l : iv ∈ sort_intervals l <-> iv ∈ l.
Proof.
  unfold sort_intervals. induction l as [| y l IH]; simpl; [done |].
  rewrite insert_interval_elem, IH, elem_of_cons. tauto.
Qed.

Lemma insert_desc_elem {A} (lt : A -> A -> bool) x y l :
  y ∈ insert_desc lt x l <-> y = x \/ y ∈ l.
Proof.
  induction l as [| z l IH]; simpl.
  - rewrite elem_of_cons, elem_of_nil. tauto.
  - destruct (lt x z); rewrite !elem_of_cons; [rewrite IH |]; tauto.
Qed.

Lemma sort_desc_elem {A} (lt : A -> A -> bool) y l :
  y ∈ sort_desc lt l <-> y ∈ l.
Proof.
  unfold sort_desc. induction l as [| z l IH]; simpl; [done |].
  rewrite insert_desc_elem, IH, elem_of_cons. tauto.
Qed.

Lemma unique_from_elem seen x l : x ∈ unique_from seen l -> x ∈ l.
Proof.
  revert seen. induction l as [| y l IH]; intros seen; simpl; [done |].
  case_bool_decide; rewrite ?elem_of_cons; intros Hx; [right; eauto |].
  destruct Hx as [-> | Hx]; [by left | right; eauto].
Qed.

(** ** The chunk given to one operator *)

Lemma chunk_minutes avail (rem : Q) :
  TIME_STEP_MIN <= avail -> (0 < rem)%Q ->
  let dur := round_up_to_step
               (int_of_Q (min_h rem (inject_Z avail / 60) * 60)) TIME_STEP_MIN in
  0 <= dur
  /\ (exists n, dur = n * TIME_STEP_MIN)
  /\ (inject_Z dur / 60 < rem + (1 # 4))%Q
  /\ ((TIME_STEP_MIN | avail) -> dur <= avail).
Proof.
  intros Hav Hrem. unfold TIME_STEP_MIN in *.
  assert (Havq : (0 < inject_Z avail / 60)%Q).
  { assert (inject_Z 15 <= inject_Z avail)%Q by (rewrite <- Zle_Qle; lia).
    change (inject_Z 15) with 15%Q in *. apply Qlt_shift_div_l; lra. }
  pose proof (min_h_pos _ _ Hrem Havq) as Hpos.
  pose proof (min_h_le_l rem (inject_Z avail / 60)) as Hl.
  pose proof (min_h_le_r rem (inject_Z avail / 60)) as Hr.
  generalize dependent (min_h rem (inject_Z avail / 60)). intros c Hpos Hl Hr.
  rewrite int_of_Q_nonneg by lra.
  pose proof (Qfloor_le (c * 60)) as Hfl.
  assert (Hf0 : 0 <= Qfloor (c * 60)).
  { rewrite <- (Qfloor_Z 0). apply Qfloor_resp_le.
    change (inject_Z 0) with 0%Q. lra. }
  pose proof (round_up_bounds (Qfloor (c * 60)) 15 ltac:(lia)) as [Hlo Hhi].
  cbv zeta. split; [lia |]. split; [apply round_up_multiple |]. split.
  - assert (inject_Z (round_up_to_step (Qfloor (c * 60)) 15)
            < inject_Z (Qfloor (c * 60)) + 15)%Q as Hq.
    { change 15%Q with (inject_Z 15). rewrite <- inject_Z_plus, <- Zlt_Qlt. lia. }
    apply Qlt_shift_div_r; lra.
  - intros [k ->].
    rewrite <- (round_up_exact k 15) by lia.
    apply round_up_mono; [lia |].
    rewrite <- (Qfloor_Z (k * 15)). apply Qfloor_resp_le.
    assert (inject_Z (k * 15) / 60 * 60 == inject_Z (k * 15))%Q by field.
    lra.
Qed.

(** ** One candidate operator *)

Section Steps.

Variable day_start : Z.
Variable base_minutes : Z.
Variable trained : list TrainingRow.
Variable available_operators : gset string.

Local Abbreviation assign_ops := (assign_ops day_start base_minutes).
Local Abbreviation schedule_rows :=
  (schedule_rows day_start base_minutes trained available_operators).
Local Abbreviation day_inv :=
  (day_inv day_start base_minutes trained available_operators).
Local Abbreviation asg_ok :=
  (asg_ok day_start base_minutes trained available_operators).

Local Abbreviation committed := (committed day_start base_minutes).
Local Abbreviation eligible := (eligible trained available_operators).

Lemma setdefault_lookup (m : gmap (option string) (list interval)) wc wc' :
  default [] (match m !! wc with Some _ => m | None => <[wc := []]> m end !! wc')
  = default [] (m !! wc').
Proof.
  destruct (m !! wc) eqn:E; [done |].
  destruct (decide (wc = wc')) as [<- | Hne].
  - by rewrite lookup_insert_eq, E.
  - by rewrite lookup_insert_ne.
Qed.

Lemma try_operator_cases prod sub wc remain_h op sched st :
  (sched < remain_h)%Q ->
  let r := try_operator day_start base_minutes prod sub wc remain_h op sched st in
  (r.1 = sched /\ same_day st r.2)
  \/ exists a, operator a = op /\ product a = prod /\ subsystem a = sub
               /\ workcell a = wc
               /\ committed remain_h sched st r.2 a r.1.
Proof.
  intros Hlt. unfold try_operator.
  set (avail := default 0 (avail_min_per_op st !! op)).
  destruct (avail <? TIME_STEP_MIN) eqn:Hav; [left; by repeat split |].
  assert (Hav' : TIME_STEP_MIN <= avail) by lia.
  destruct (place_next_slot _ _ _ _ _) as [[s e] |] eqn:Hslot;
    [| left; by repeat split].
  apply place_next_slot_some in Hslot
    as (Hnz & [k Hk] & He & Hend & Hfree & Hfirst).
  assert (Hrem : (0 < remain_h - sched)%Q) by lra.
  destruct (chunk_minutes avail _ Hav' Hrem) as (H0 & [n Hn] & Hover & Hfit).
  set (dur := round_up_to_step _ _) in *.
  rewrite setdefault_lookup.
  destruct (can_place s e (default [] (occ_by_wc st !! wc))) eqn:Hwc.
  - right. rewrite used_min_exact.
    exists (mkAssignment op prod sub wc s e
              (inject_Z ((e - s) * 60) / 3600)).
    do 4 (split; [reflexivity |]).
    assert (Hd : e - s = dur) by lia.
    assert (Hq : (inject_Z ((e - s) * 60) / 3600 == inject_Z dur / 60)%Q)
      by (rewrite Hd, inject_Z_mult; field).
    split; simpl; try done.
    + exists n. unfold TIME_STEP_MIN in *. lia.
    + exists (Z.of_nat k). split; [lia | done].
    + rewrite inject_Z_mult. field.
    + rewrite Hq. done.
    + rewrite Hd. done.
    + intros op' iv. destruct (decide (op' = op)) as [-> | Hne].
      * rewrite lookup_insert_eq. simpl.
        rewrite sort_intervals_elem, elem_of_app, list_elem_of_singleton.
        tauto.
      * rewrite lookup_insert_ne by done. split; [tauto |].
        intros [? | [? _]]; [done | done].
    + intros wc' iv. destruct (decide (wc' = wc)) as [-> | Hne].
      * rewrite lookup_insert_eq. simpl.
        rewrite sort_intervals_elem, elem_of_app, list_elem_of_singleton.
        tauto.
      * rewrite lookup_insert_ne by done. rewrite setdefault_lookup.
        split; [tauto |]. intros [? | [? _]]; [done | done].
    + intros op' Hsome. destruct (decide (op' = op)) as [-> | Hne].
      * rewrite lookup_insert_eq. eauto.
      * by rewrite lookup_insert_ne.
  - left. repeat split; simpl. apply setdefault_lookup.
Qed.

(** *** Preservation of the invariant *)

Hypothesis base_on_grid : (TIME_STEP_MIN | base_minutes).

Lemma op_minutes_on_grid op l :
  Forall asg_ok l -> (TIME_STEP_MIN | op_minutes op l).
Proof.
  induction 1 as [| a l Ha _ IH]; simpl; [apply Z.divide_0_r |].
  apply Z.divide_add_r; [| done].
  case_bool_decide; [| apply Z.divide_0_r].
  destruct (ok_len _ _ _ _ _ Ha) as (n & _ & ->).
  exists n. lia.
Qed.

Lemma op_minutes_single op a :
  op_minutes op [a] = if bool_decide (operator a = op) then end_ a - start a else 0.
Proof. simpl. lia. Qed.

Lemma same_day_inv st st' : same_day st st' -> day_inv st -> day_inv st'.
Proof.
  intros (Ha & Hv & Ho & Hw) [].
  split; rewrite ?Ha, ?Hv, ?Ho; try done.
  intros wc iv. by rewrite Hw.
Qed.

Lemma committed_inv remain_h sched st st' a sched' :
  committed remain_h sched st st' a sched' ->
  operator a ∈ available_operators ->
  (exists r, r ∈ trained /\ tr_Operator r = operator a
             /\ tr_Product r = product a /\ tr_Subsystem r = subsystem a) ->
  day_inv st -> day_inv st'.
Proof.
  intros C Hin Htr I.
  pose proof (inv_avail _ _ _ _ _ I _ Hin) as Hav.
  assert (Hfit : end_ a - start a
                 <= base_minutes - op_minutes (operator a) (assignments st)).
  { pose proof (cm_fit _ _ _ _ _ _ _ _ C) as Hf. rewrite Hav in Hf. simpl in Hf.
    apply Hf. apply Z.divide_sub_r; [done |].
    apply op_minutes_on_grid, I. }
  destruct (cm_len _ _ _ _ _ _ _ _ C) as (n & Hn & Hlen).
  split.
  - rewrite (cm_asg _ _ _ _ _ _ _ _ C). apply Forall_app. split; [apply I |].
    apply Forall_singleton. split; try done; apply C.
  - intros op iv.
    rewrite (cm_occ_op _ _ _ _ _ _ _ _ C), (inv_occ_op _ _ _ _ _ I),
      (cm_asg _ _ _ _ _ _ _ _ C).
    setoid_rewrite elem_of_app. setoid_rewrite list_elem_of_singleton.
    naive_solver.
  - intros wc iv.
    rewrite (cm_occ_wc _ _ _ _ _ _ _ _ C), (inv_occ_wc _ _ _ _ _ I),
      (cm_asg _ _ _ _ _ _ _ _ C).
    setoid_rewrite elem_of_app. setoid_rewrite list_elem_of_singleton.
    naive_solver.
  - intros i j x y Hij Hx Hy Hsame.
    rewrite (cm_asg _ _ _ _ _ _ _ _ C) in Hx, Hy.
    apply lookup_app_Some in Hy as [Hy | [Hlen' Hy]].
    + pose proof (lookup_lt_Some _ _ _ Hy).
      rewrite lookup_app_l in Hx by lia.
      by apply (inv_clash _ _ _ _ _ I i j).
    + apply list_lookup_singleton_Some in Hy as [Hj <-].
      rewrite lookup_app_l in Hx by lia.
      assert (Hxin : x ∈ assignments st) by (eapply list_elem_of_lookup_2; eauto).
      unfold no_overlap. destruct Hsame as [Hop | Hwc].
      * pose proof (cm_free_op _ _ _ _ _ _ _ _ C) as Hfree.
        rewrite can_place_spec in Hfree.
        assert (Hocc : (start x, end_ x)
                       ∈ default [] (occ_by_op st !! operator a))
          by (apply (inv_occ_op _ _ _ _ _ I); eauto).
        specialize (Hfree _ Hocc). simpl in Hfree. lia.
      * pose proof (cm_free_wc _ _ _ _ _ _ _ _ C) as Hfree.
        rewrite can_place_spec in Hfree.
        assert (Hocc : (start x, end_ x)
                       ∈ default [] (occ_by_wc st !! workcell a))
          by (apply (inv_occ_wc _ _ _ _ _ I); eauto).
        specialize (Hfree _ Hocc). simpl in Hfree. lia.
  - intros op Hop.
    rewrite (cm_avail' _ _ _ _ _ _ _ _ C), (cm_asg _ _ _ _ _ _ _ _ C), op_minutes_app,
      op_minutes_single.
    case_bool_decide as Heq.
    + subst op. rewrite lookup_insert_eq, Hav. simpl. f_equal. lia.
    + rewrite lookup_insert_ne by done.
      rewrite (inv_avail _ _ _ _ _ I _ Hop). f_equal. lia.
  - intros op. rewrite (cm_asg _ _ _ _ _ _ _ _ C), op_minutes_app, op_minutes_single.
    pose proof (inv_cap _ _ _ _ _ I op).
    case_bool_decide as Heq; [subst op |]; lia.
  - intros x. rewrite (cm_asg _ _ _ _ _ _ _ _ C). setoid_rewrite elem_of_app.
    setoid_rewrite list_elem_of_singleton.
    intros [Hx | ->].
    + destruct (inv_first _ _ _ _ _ I _ Hx) as (a0 & ? & ? & ?). eauto 6.
    + destruct (default [] (occ_by_op st !! operator a)) as [| iv l] eqn:Hocc.
      * exists a. split; [by right |]. split; [done |].
        by apply (cm_first _ _ _ _ _ _ _ _ C).
      * assert (Hiv : iv ∈ default [] (occ_by_op st !! operator a))
          by (rewrite Hocc; left).
        apply (inv_occ_op _ _ _ _ _ I) in Hiv as (a1 & Ha1 & Hop1 & _).
        destruct (inv_first _ _ _ _ _ I _ Ha1) as (a0 & ? & ? & ?).
        exists a0. split; [by left |]. split; [congruence | done].
  - intros op Hop. apply (cm_keys _ _ _ _ _ _ _ _ C), (inv_keys _ _ _ _ _ I _ Hop).
Qed.

(** *** The loop over the candidate operators *)

Lemma Qle_bool_false a b : Qle_bool a b = false -> (b < a)%Q.
Proof.
  intros H. apply Qnot_le_lt. intros Hle.
  apply Qle_bool_iff in Hle. congruence.
Qed.

Lemma try_operator_inv prod sub wc remain_h op sched st :
  (sched < remain_h)%Q -> eligible prod sub op -> day_inv st ->
  day_inv (try_operator day_start base_minutes prod sub wc remain_h op sched st).2.
Proof.
  intros Hlt [Hin Htr] I.
  destruct (try_operator_cases prod sub wc remain_h op sched st Hlt)
    as [[_ Hsame] | (a & <- & <- & <- & _ & C)].
  - by eapply same_day_inv.
  - by eapply committed_inv.
Qed.

Lemma assign_ops_inv prod sub wc remain_h ops sched st :
  Forall (eligible prod sub) ops -> day_inv st ->
  day_inv (assign_ops prod sub wc remain_h ops sched st).2.
Proof.
  intros Hops. revert sched st.
  induction Hops as [| op ops Hop _ IH]; intros sched st I; simpl; [done |].
  destruct (Qle_bool remain_h sched) eqn:Hbrk; [done |].
  apply Qle_bool_false in Hbrk.
  pose proof (try_operator_inv prod sub wc remain_h op sched st Hbrk Hop I) as I'.
  destruct (try_operator day_start base_minutes _ _ _ _ _ _ _) as [h st']. by apply IH.
Qed.

(** What one task adds to the assignment list, and how many hours. *)
Lemma assign_ops_trace prod sub wc remain_h ops sched st :
  let r := assign_ops prod sub wc remain_h ops sched st in
  exists new,
    assignments r.2 = assignments st ++ new
    /\ r.1 == sched + hours new
    /\ Forall (fun a => product a = prod /\ subsystem a = sub
                        /\ workcell a = wc) new
    /\ ((sched < remain_h + (1 # 4))%Q -> (r.1 < remain_h + (1 # 4))%Q).
Proof.
  revert sched st. induction ops as [| op ops IH]; intros sched st; simpl.
  - exists []. rewrite app_nil_r. repeat split; [simpl; ring | done | done].
  - destruct (Qle_bool remain_h sched) eqn:Hbrk.
    + exists []. rewrite app_nil_r. repeat split; [simpl; ring | done | done].
    + apply Qle_bool_false in Hbrk.
      destruct (try_operator_cases prod sub wc remain_h op sched st Hbrk)
        as [[Hs (Ha & _)] | (a & Hop & Hp & Hsub & Hwc & C)];
        destruct (try_operator day_start base_minutes _ _ _ _ _ _ _) as [h st']; simpl in *.
      * subst h. destruct (IH sched st') as (new & Hn & Hh & Hk & Hb).
        exists new. rewrite Hn, Ha. done.
      * destruct (IH h st') as (new & Hn & Hh & Hk & Hb).
        exists (a :: new).
        rewrite Hn, (cm_asg _ _ _ _ _ _ _ _ C), <- app_assoc. simpl.
        pose proof (cm_sched _ _ _ _ _ _ _ _ C) as Hsch.
        pose proof (cm_over _ _ _ _ _ _ _ _ C) as Hov.
        split; [done |]. split; [rewrite Hh, Hsch; unfold hours; simpl; ring |].
        split; [by constructor |].
        intros _. apply Hb. rewrite Hsch. lra.
Qed.

(** *** One task row *)

Lemma cand_ops_eligible st prod sub :
  Forall (eligible prod sub) (cand_ops trained available_operators st prod sub).
Proof.
  apply Forall_forall. intros op. unfold cand_ops.
  rewrite list_elem_of_filter. intros [[Hin _] Hop]. split; [done |].
  apply unique_from_elem, list_elem_of_fmap in Hop as (r & -> & Hr).
  apply list_elem_of_filter in Hr as [Hkey Hr].
  unfold same_key in Hkey. apply andb_prop in Hkey as [Hp Hs].
  apply bool_decide_eq_true in Hp, Hs. exists r. done.
Qed.

Lemma sorted_ops_eligible st prod sub ops :
  Forall (eligible prod sub) ops ->
  Forall (eligible prod sub) (sorted_ops st ops).
Proof.
  rewrite !Forall_forall. intros H op Hop. apply H.
  unfold sorted_ops in Hop. by apply sort_desc_elem in Hop.
Qed.

Lemma schedule_task_inv st task :
  day_inv st -> day_inv (schedule_task day_start base_minutes trained available_operators st task).1.
Proof.
  intros I. unfold schedule_task.
  destruct (_ || _); [done |].
  pose proof (assign_ops_inv (dt_Product task) (dt_Subsystem task)
                (dt_Workcell task) (dt_RemainingTime task)
                (sorted_ops st (cand_ops trained available_operators st
                                  (dt_Product task) (dt_Subsystem task)))
                0 st) as H.
  destruct (assign_ops _ _ _ _ _ _ _) as [h st']. simpl in *.
  apply H; [| done]. apply sorted_ops_eligible, cand_ops_eligible.
Qed.

Lemma schedule_rows_inv tasks st rows :
  day_inv st -> day_inv (schedule_rows tasks st rows).1.
Proof.
  revert st rows. induction tasks as [| task tasks IH]; intros st rows I;
    simpl; [done |].
  pose proof (schedule_task_inv st task I) as I'.
  destruct (schedule_task day_start base_minutes trained available_operators st task) as [st' row]. by apply IH.
Qed.

End Steps.

(** ** A whole day *)

Lemma weekday_range d : 0 <= weekday d < 7.
Proof. unfold weekday. apply Z.mod_pos_bound. lia. Qed.

Lemma init_state_inv day_start base trained available :
  0 <= base ->
  day_inv day_start base trained available (init_state base available).
Proof.
  intros Hb. split; simpl; try done.
  - intros op iv. rewrite lookup_gset_to_gmap.
    destruct (guard _); simpl; rewrite elem_of_nil;
      (split; [done | intros (a & Ha & _); by apply elem_of_nil in Ha]).
  - intros wc iv. rewrite lookup_empty. simpl. rewrite elem_of_nil.
    split; [done | intros (a & Ha & _); by apply elem_of_nil in Ha].
  - intros op Hop. rewrite lookup_gset_to_gmap_Some. split; [done | lia].
  - intros a Ha. by apply elem_of_nil in Ha.
  - intros op Hop. exists []. by apply lookup_gset_to_gmap_Some.
Qed.

Lemma schedule_day_weekend d tasks trainings stations available :
  5 <= weekday d ->
  schedule_day_with_remaining d tasks trainings stations available = ([], tasks).
Proof.
  intros H. unfold schedule_day_with_remaining.
  destruct (5 <=? weekday d) eqn:E; [done | lia].
Qed.

(** On a working day the result is the final state of the row loop, which
    satisfies the invariant. *)
Lemma schedule_day_weekday d tasks trainings stations available :
  weekday d < 5 ->
  let day_start := dt_combine d START_TIME in
  let base := base_minutes_of (weekday d) in
  let trained := filter (fun r => tr_Trained r = "Y"%string) trainings in
  exists st rows,
    schedule_rows day_start base trained available (day_tasks tasks stations)
      (init_state base available) [] = (st, rows)
    /\ schedule_day_with_remaining d tasks trainings stations available
       = (assignments st, rows)
    /\ day_inv day_start base trained available st
    /\ (base = 480 \/ base = 360).
Proof.
  intros Hwd day_start base trained.
  pose proof (weekday_range d) as Hr.
  assert (Hbase : base = 480 \/ base = 360).
  { unfold base, base_minutes_of.
    destruct (weekday d <? 4) eqn:E4; [by left |].
    destruct (weekday d =? 4) eqn:E5; [by right | lia]. }
  unfold schedule_day_with_remaining. fold base day_start trained.
  destruct ((5 <=? weekday d) || (base =? 0)) eqn:E.
  { apply orb_prop in E as [E | E]; lia. }
  assert (Hgrid : (TIME_STEP_MIN | base)).
  { unfold TIME_STEP_MIN. destruct Hbase as [Hb | Hb]; rewrite Hb;
      [exists 32 | exists 24]; lia. }
  assert (Hpos : 0 <= base) by lia.
  pose proof (schedule_rows_inv day_start base trained available Hgrid
                (day_tasks tasks stations) (init_state base available) []
                (init_state_inv _ _ _ _ Hpos)) as I.
  destruct (schedule_rows _ _ _ _ _ _ _) as [st rows].
  exists st, rows. done.
Qed.

Lemma op_hours_minutes day_start base trained available op l :
  Forall (asg_ok day_start base trained available) l ->
  op_hours op l * 60 == inject_Z (op_minutes op l).
Proof.
  induction 1 as [| a l Ha _ IH]; simpl; [reflexivity |].
  rewrite inject_Z_plus, <- IH.
  case_bool_decide.
  - rewrite (ok_hours _ _ _ _ _ Ha). field.
  - change (inject_Z 0) with 0%Q. ring.
Qed.

Lemma no_overlap_sym a b : no_overlap a b -> no_overlap b a.
Proof. unfold no_overlap. tauto. Qed.

(** ** The properties of the day scheduler *)

(** C1 (no double-booking).  Any two assignments of one scheduler run at
    different positions of the returned list that share the operator do
    not overlap as intervals [[Start, End)], and neither do any two that
    share the workcell. *)
Theorem no_double_booking d tasks trainings stations available
    (i j : nat) (a b : Assignment) :
  let asg := (schedule_day_with_remaining d tasks trainings stations available).1 in
  i <> j -> asg !! i = Some a -> asg !! j = Some b ->
  (operator a = operator b -> no_overlap a b)
  /\ (workcell a = workcell b -> no_overlap a b).
Proof.
  intros asg Hij Ha Hb.
  destruct (Z_lt_le_dec (weekday d) 5) as [Hwd | Hwd].
  - destruct (schedule_day_weekday d tasks trainings stations available Hwd)
      as (st & rows & _ & Hres & I & _).
    unfold asg in *. rewrite Hres in *. simpl in *.
    destruct (Nat.lt_total i j) as [Hlt | [-> | Hlt]]; [| done |].
    + split; intros; eapply (inv_clash _ _ _ _ _ I i j); eauto.
    + split; intros; apply no_overlap_sym;
        eapply (inv_clash _ _ _ _ _ I j i); eauto.
  - unfold asg in *. rewrite schedule_day_weekend in Ha by done. done.
Qed.

(** C3 (capacity respected).  For every operator the durations of the
    operator's assignments of the day add up to at most 480 minutes from
    Monday to Thursday and 360 minutes on Friday; on Saturday and Sunday
    there is no assignment at all.  The [DurationHours] of the assignments
    are these minutes divided by 60. *)
Theorem capacity_respected d tasks trainings stations available op :
  let asg := (schedule_day_with_remaining d tasks trainings stations available).1 in
  op_hours op asg * 60 == inject_Z (op_minutes op asg)
  /\ (weekday d < 4 -> op_minutes op asg <= 480)
  /\ (weekday d = 4 -> op_minutes op asg <= 360)
  /\ (5 <= weekday d -> asg = []).
Proof.
  intros asg.
  destruct (Z_lt_le_dec (weekday d) 5) as [Hwd | Hwd].
  - destruct (schedule_day_weekday d tasks trainings stations available Hwd)
      as (st & rows & _ & Hres & I & _).
    unfold asg. rewrite Hres. simpl.
    pose proof (inv_cap _ _ _ _ _ I op) as Hcap.
    split; [eapply op_hours_minutes, I |].
    unfold base_minutes_of in Hcap.
    repeat split; intros H; [| | lia].
    + destruct (weekday d <? 4) eqn:E; [done | lia].
    + rewrite H in Hcap. done.
  - unfold asg. rewrite schedule_day_weekend by done. simpl.
    split; [reflexivity |]. repeat split; (lia || done).
Qed.

(** C4 (training respected).  The triple (Operator, Product, Subsystem) of
    every assignment is a row of the training table with Trained = "Y". *)
Theorem training_respected d tasks trainings stations available a :
  a ∈ (schedule_day_with_remaining d tasks trainings stations available).1 ->
  trained_for trainings (operator a) (product a) (subsystem a).
Proof.
  intros Ha.
  destruct (Z_lt_le_dec (weekday d) 5) as [Hwd | Hwd].
  - destruct (schedule_day_weekday d tasks trainings stations available Hwd)
      as (st & rows & _ & Hres & I & _).
    rewrite Hres in Ha. simpl in Ha.
    pose proof (inv_asg _ _ _ _ _ I) as Hall.
    rewrite Forall_forall in Hall.
    destruct (ok_trained _ _ _ _ _ (Hall _ Ha)) as (r & Hr & Ho & Hp & Hs).
    apply list_elem_of_filter in Hr as [HY Hr].
    exists r. done.
  - rewrite schedule_day_weekend in Ha by done. by apply elem_of_nil in Ha.
Qed.

(** C5 (grid alignment).  Start and End of every assignment lie a whole
    number of 15-minute steps after the day start (08:00 of the day), and
    the interval is inside the work window from the day start to the day
    start plus the capacity of the day. *)
Theorem grid_alignment d tasks trainings stations available a :
  a ∈ (schedule_day_with_remaining d tasks trainings stations available).1 ->
  let day_start := dt_combine d START_TIME in
  on_grid day_start (start a) /\ on_grid day_start (end_ a)
  /\ day_start <= start a < end_ a
  /\ end_ a <= day_start + base_minutes_of (weekday d).
Proof.
  intros Ha day_start.
  destruct (Z_lt_le_dec (weekday d) 5) as [Hwd | Hwd].
  - destruct (schedule_day_weekday d tasks trainings stations available Hwd)
      as (st & rows & _ & Hres & I & _).
    rewrite Hres in Ha. simpl in Ha.
    pose proof (inv_asg _ _ _ _ _ I) as Hall.
    rewrite Forall_forall in Hall. specialize (Hall _ Ha).
    destruct (ok_start _ _ _ _ _ Hall) as (k & Hk & Hs).
    destruct (ok_len _ _ _ _ _ Hall) as (n & Hn & He).
    pose proof (ok_end _ _ _ _ _ Hall) as Hend.
    fold day_start in Hs, Hend. unfold TIME_STEP_MIN in *.
    split; [exists k; done |].
    split; [exists (k + n); unfold TIME_STEP_MIN; lia |].
    split; [lia | done].
  - rewrite schedule_day_weekend in Ha by done. by apply elem_of_nil in Ha.
Qed.

(** C10 (first assignment at day start).  An operator with an assignment
    on the day has one that starts at the day start, 08:00, and none of
    the operator's assignments starts earlier. *)
Theorem first_assignment_at_day_start d tasks trainings stations available a :
  let asg := (schedule_day_with_remaining d tasks trainings stations available).1 in
  a ∈ asg ->
  exists a0, a0 ∈ asg /\ operator a0 = operator a
    /\ start a0 = dt_combine d START_TIME
    /\ forall b, b ∈ asg -> operator b = operator a -> start a0 <= start b.
Proof.
  intros asg Ha.
  destruct (Z_lt_le_dec (weekday d) 5) as [Hwd | Hwd].
  - destruct (schedule_day_weekday d tasks trainings stations available Hwd)
      as (st & rows & _ & Hres & I & _).
    unfold asg in *. rewrite Hres in *. simpl in *.
    destruct (inv_first _ _ _ _ _ I _ Ha) as (a0 & Ha0 & Hop & Hs).
    exists a0. repeat split; try done.
    intros b Hb _. rewrite Hs.
    pose proof (inv_asg _ _ _ _ _ I) as Hall.
    rewrite Forall_forall in Hall.
    destruct (ok_start _ _ _ _ _ (Hall _ Hb)) as (k & Hk & ->).
    unfold TIME_STEP_MIN. lia.
  - unfold asg in Ha. rewrite schedule_day_weekend in Ha by done.
    by apply elem_of_nil in Ha.
Qed.

(** ** The properties on the worked inputs *)

Lemma demo_monday_run :
  schedule_day_with_remaining demo_monday demo_tasks demo_training
    demo_stations demo_operators = ([demo_a1; demo_a2], []).
Proof. vm_compute. reflexivity. Qed.

Lemma no_double_booking_witness :
  let asg := (schedule_day_with_remaining demo_monday demo_tasks
                demo_training demo_stations demo_operators).1 in
  (0 <> 1)%nat /\ asg !! 0%nat = Some demo_a1 /\ asg !! 1%nat = Some demo_a2
  /\ (operator demo_a1 = operator demo_a2 -> no_overlap demo_a1 demo_a2)
  /\ (workcell demo_a1 = workcell demo_a2 -> no_overlap demo_a1 demo_a2).
Proof.
  intros asg.
  assert (H0 : asg !! 0%nat = Some demo_a1) by (vm_compute; reflexivity).
  assert (H1 : asg !! 1%nat = Some demo_a2) by (vm_compute; reflexivity).
  split; [lia |]. split; [exact H0 |]. split; [exact H1 |].
  exact (no_double_booking demo_monday demo_tasks demo_training demo_stations
           demo_operators 0 1 demo_a1 demo_a2 ltac:(lia) H0 H1).
Defined.

Lemma capacity_respected_witness :
  weekday demo_monday < 4
  /\ op_minutes "op1" (schedule_day_with_remaining demo_monday demo_tasks
                         demo_training demo_stations demo_operators).1 <= 480.
Proof.
  assert (H : weekday demo_monday < 4) by (vm_compute; reflexivity).
  split; [exact H |].
  exact (proj1 (proj2 (capacity_respected demo_monday demo_tasks demo_training
                         demo_stations demo_operators "op1")) H).
Defined.

Lemma training_respected_witness :
  demo_a2 ∈ (schedule_day_with_remaining demo_monday demo_tasks demo_training
               demo_stations demo_operators).1
  /\ trained_for demo_training "op1" "P1" "S2".
Proof.
  assert (H : demo_a2 ∈ (schedule_day_with_remaining demo_monday demo_tasks
                           demo_training demo_stations demo_operators).1).
  { rewrite demo_monday_run. simpl. set_solver. }
  split; [exact H |].
  exact (training_respected demo_monday demo_tasks demo_training demo_stations
           demo_operators demo_a2 H).
Defined.

Lemma grid_alignment_witness :
  demo_a2 ∈ (schedule_day_with_remaining demo_monday demo_tasks demo_training
               demo_stations demo_operators).1
  /\ on_grid demo_start (demo_start + 120)
  /\ on_grid demo_start (demo_start + 180)
  /\ demo_start <= demo_start + 120 < demo_start + 180
  /\ demo_start + 180 <= demo_start + 480.
Proof.
  assert (H : demo_a2 ∈ (schedule_day_with_remaining demo_monday demo_tasks
                           demo_training demo_stations demo_operators).1).
  { rewrite demo_monday_run. simpl. set_solver. }
  split; [exact H |].
  exact (grid_alignment demo_monday demo_tasks demo_training demo_stations
           demo_operators demo_a2 H).
Defined.

Lemma first_assignment_at_day_start_witness :
  let asg := (schedule_day_with_remaining demo_monday demo_tasks
                demo_training demo_stations demo_operators).1 in
  demo_a2 ∈ asg
  /\ exists a0, a0 ∈ asg /\ operator a0 = "op1"%string
       /\ start a0 = demo_start
       /\ forall b, b ∈ asg -> operator b = "op1"%string -> start a0 <= start b.
Proof.
  intros asg.
  assert (H : demo_a2 ∈ asg).
  { unfold asg. rewrite demo_monday_run. simpl. set_solver. }
  split; [exact H |].
  exact (first_assignment_at_day_start demo_monday demo_tasks demo_training
           demo_stations demo_operators demo_a2 H).
Defined.

(** ** Accounting for the hours of a task *)

Lemma round2_close x :
  (x - (1 # 200) <= round2 x <= x + (1 # 200))%Q.
Proof.
  destruct (round2_spec x) as (n & -> & Hlo & Hhi).
  rewrite (Qmake_Qdiv n 100). change (inject_Z (Z.pos 100)) with 100%Q.
  generalize dependent (inject_Z n). intros q Hlo Hhi.
  split.
  - apply Qle_shift_div_l; lra.
  - apply Qle_shift_div_r; lra.
Qed.


Section Accounting.

Variable day_start : Z.
Variable base_minutes : Z.
Variable trained : list TrainingRow.
Variable available_operators : gset string.

Local Abbreviation schedule_rows :=
  (schedule_rows day_start base_minutes trained available_operators).

Lemma schedule_task_trace st task :
  let r := schedule_task day_start base_minutes trained available_operators st task in
  exists seg, assignments r.1 = assignments st ++ seg
              /\ accounted task seg r.2.
Proof.
  unfold schedule_task.
  destruct (_ || _) eqn:Hskip.
  - exists []. simpl. rewrite app_nil_r. split; [done |].
    split; [done |]. split; [by intros r [= <-] |].
    unfold conserved, hours. simpl. repeat split; intros; lra.
  - apply orb_false_elim in Hskip as [_ Hpos].
    apply Qle_bool_false in Hpos.
    destruct (assign_ops_trace day_start base_minutes (dt_Product task)
                (dt_Subsystem task) (dt_Workcell task)
                (dt_RemainingTime task)
                (sorted_ops st (cand_ops trained available_operators st
                                  (dt_Product task) (dt_Subsystem task)))
                0 st) as (seg & Hseg & Hh & Hkey & Hb).
    destruct (assign_ops _ _ _ _ _ _ _ _ _) as [h st']. simpl in *.
    exists seg. split; [done |]. split; [done |].
    assert (Hh' : (h < dt_RemainingTime task + (1 # 4))%Q) by (apply Hb; lra).
    pose proof (round2_close (dt_RemainingTime task - h)) as [Hlo Hhi].
    unfold max_h.
    destruct (Qlt_le_dec 0 (round2 (dt_RemainingTime task - h))) as [Hy | Hy].
    + destruct (Qlt_le_dec 0 _) as [_ | Hn]; [| lra].
      split; [by intros r [= <-] |].
      unfold conserved. simpl. repeat split; intros; lra.
    + destruct (Qlt_le_dec 0 0) as [Hn | _]; [lra |].
      split; [done |].
      unfold conserved. simpl. repeat split; intros; lra.
Qed.


End Accounting.




(** ** Tasks that are not scheduled *)

Lemma merge_left_elem {L R C : Type} (matches : L -> R -> bool)
    (pair : L -> option R -> C) (left : list L) (right : list R) (l : L) :
  l ∈ left -> exists o, pair l o ∈ merge_left matches pair left right.
Proof.
  intros Hl. unfold merge_left.
  destruct (filter (fun r => matches l r = true) right) as [| r rs] eqn:E.
  - exists None. apply list_elem_of_In, in_flat_map. exists l.
    split; [by apply list_elem_of_In |]. rewrite E. by left.
  - exists (Some r). apply list_elem_of_In, in_flat_map. exists l.
    split; [by apply list_elem_of_In |]. rewrite E. by left.
Qed.

Lemma day_tasks_elem tasks stations t h :
  t ∈ tasks -> RemainingTime t = Some h ->
  exists wc, mkDayTask (Product t) (Subsystem t) wc h ∈ day_tasks tasks stations.
Proof.
  intros Ht Hh.
  destruct (merge_left_elem
              (fun t s => same_key (Product t) (Subsystem t)
                            (stn_Product s) (stn_Subsystem s))
              (fun t s => (t, stn_Workcell <$> s)) tasks stations t Ht)
    as [o Ho].
  exists (stn_Workcell <$> o). unfold day_tasks.
  apply sort_desc_elem, list_elem_of_omap.
  exists (t, stn_Workcell <$> o). split; [done |]. simpl. by rewrite Hh.
Qed.

Lemma merge_left_inv {L R C : Type} (matches : L -> R -> bool)
    (pair : L -> option R -> C) (left : list L) (right : list R) (c : C) :
  c ∈ merge_left matches pair left right ->
  exists l, l ∈ left
    /\ ((filter (fun r => matches l r = true) right = [] /\ c = pair l None)
        \/ exists r, r ∈ right /\ matches l r = true /\ c = pair l (Some r)).
Proof.
  unfold merge_left. intros Hc.
  apply list_elem_of_In, in_flat_map in Hc as (l & Hl & Hc).
  exists l. split; [by apply list_elem_of_In |].
  destruct (filter (fun r => matches l r = true) right) as [| r rs] eqn:E.
  - left. split; [done |]. destruct Hc as [<- | []]. done.
  - right. apply in_map_iff in Hc as (r' & <- & Hr').
    apply list_elem_of_In in Hr'. rewrite <- E in Hr'.
    apply list_elem_of_filter in Hr' as [Hm Hr']. eauto.
Qed.

Lemma day_tasks_inv tasks stations task :
  task ∈ day_tasks tasks stations ->
  exists t, t ∈ tasks /\ Product t = dt_Product task
    /\ Subsystem t = dt_Subsystem task
    /\ RemainingTime t = Some (dt_RemainingTime task)
    /\ match dt_Workcell task with
       | Some w => exists s, s ∈ stations /\ stn_Product s = Product t
                     /\ stn_Subsystem s = Subsystem t /\ stn_Workcell s = w
       | None => forall s, s ∈ stations ->
                   ~ (stn_Product s = Product t /\ stn_Subsystem s = Subsystem t)
       end.
Proof.
  unfold day_tasks. intros H.
  apply sort_desc_elem, list_elem_of_omap in H as ([t wc] & Hm & Hk).
  destruct (RemainingTime t) as [h |] eqn:Hh; [| done].
  simpl in Hk. injection Hk as <-. simpl.
  apply merge_left_inv in Hm as (t' & Ht' & Hcase).
  destruct Hcase as [[Hnone Heq] | (s & Hs & Hkey & Heq)];
    simpl in Heq; injection Heq as <- ->.
  - exists t. repeat split; try done. simpl.
    intros s Hs [Hp Hsb].
    assert (Hin : s ∈ filter
                    (fun r => same_key (Product t) (Subsystem t)
                                (stn_Product r) (stn_Subsystem r) = true)
                    stations).
    { apply list_elem_of_filter. split; [| done].
      unfold same_key. rewrite Hp, Hsb, !bool_decide_eq_true_2; done. }
    rewrite Hnone in Hin. by apply elem_of_nil in Hin.
  - exists t. repeat split; try done. simpl.
    unfold same_key in Hkey. apply andb_prop in Hkey as [Hp Hsb].
    apply bool_decide_eq_true in Hp, Hsb. exists s. done.
Qed.

Section Unscheduled.

Variable day_start : Z.
Variable base_minutes : Z.
Variable trained : list TrainingRow.
Variable available_operators : gset string.

Local Abbreviation assign_ops := (assign_ops day_start base_minutes).
Local Abbreviation schedule_rows :=
  (schedule_rows day_start base_minutes trained available_operators).

Lemma schedule_task_nonpositive st task :
  (dt_RemainingTime task <= 0)%Q ->
  schedule_task day_start base_minutes trained available_operators st task
  = (st, Some (mkTask (dt_Product task) (dt_Subsystem task)
                 (Some (dt_RemainingTime task)))).
Proof.
  intros H. unfold schedule_task.
  apply Qle_bool_iff in H. rewrite H, orb_true_r. done.
Qed.

Lemma schedule_rows_keeps tasks st rows0 r :
  r ∈ rows0 -> r ∈ (schedule_rows tasks st rows0).2.
Proof.
  revert st rows0. induction tasks as [| task tasks IH]; intros st rows0 Hr;
    simpl; [done |].
  destruct (schedule_task day_start base_minutes trained available_operators st task) as [st' [row |]]; apply IH; [| done].
  apply elem_of_app. by left.
Qed.

Lemma schedule_rows_nonpositive tasks st rows0 task :
  task ∈ tasks -> (dt_RemainingTime task <= 0)%Q ->
  mkTask (dt_Product task) (dt_Subsystem task) (Some (dt_RemainingTime task))
  ∈ (schedule_rows tasks st rows0).2.
Proof.
  intros Hin Hle. revert st rows0.
  induction tasks as [| t tasks IH]; intros st rows0; simpl.
  - by apply elem_of_nil in Hin.
  - apply elem_of_cons in Hin as [<- | Hin].
    + rewrite schedule_task_nonpositive by done.
      apply schedule_rows_keeps, elem_of_app. right. by left.
    + destruct (schedule_task day_start base_minutes trained available_operators st t) as [st' row]. by apply IH.
Qed.







End Unscheduled.

(** C6 (tasks without remaining time), as the code has it.  A task row
    whose RemainingTime is at most 0 yields no assignment: processing it
    leaves the state of the day, and with it the assignment list, as it
    was.  The row is not dropped but carried forward unchanged: it is a row
    of the remainder table returned for the next day. *)
Theorem nonpositive_task_carried d tasks trainings stations available t h :
  t ∈ tasks -> RemainingTime t = Some h -> (h <= 0)%Q ->
  mkTask (Product t) (Subsystem t) (Some h)
  ∈ (schedule_day_with_remaining d tasks trainings stations available).2
  /\ forall day_start base trained st wc,
       schedule_task day_start base trained available st
         (mkDayTask (Product t) (Subsystem t) wc h)
       = (st, Some (mkTask (Product t) (Subsystem t) (Some h))).
Proof.
  intros Ht Hh Hle. split.
  - destruct (Z_lt_le_dec (weekday d) 5) as [Hwd | Hwd].
    + destruct (schedule_day_weekday d tasks trainings stations available Hwd)
        as (st & rows & Hrun & Hres & _ & _).
      rewrite Hres. simpl.
      destruct (day_tasks_elem tasks stations t h Ht Hh) as [wc Hwc].
      pose proof (schedule_rows_nonpositive (dt_combine d START_TIME)
                    (base_minutes_of (weekday d))
                    (filter (fun r => tr_Trained r = "Y"%string) trainings)
                    available _ (init_state (base_minutes_of (weekday d)) available)
                    [] _ Hwc Hle) as H.
      rewrite Hrun in H. done.
    + rewrite schedule_day_weekend by done. simpl.
      destruct t as [p s o]. simpl in *. by subst o.
  - intros. by apply schedule_task_nonpositive.
Qed.

Lemma nonpositive_task_carried_witness :
  let t := mkTask "P1" "S1" (Some 0%Q) in
  t ∈ [t] /\ RemainingTime t = Some 0%Q /\ (0 <= 0)%Q
  /\ t ∈ (schedule_day_with_remaining demo_monday [t] demo_training
            demo_stations demo_operators).2.
Proof.
  intros t.
  assert (H1 : t ∈ [t]) by (apply list_elem_of_singleton; reflexivity).
  assert (H2 : (0 <= 0)%Q) by apply Qle_refl.
  split; [exact H1 |]. split; [reflexivity |]. split; [exact H2 |].
  exact (proj1 (nonpositive_task_carried demo_monday [t] demo_training
                  demo_stations demo_operators t 0%Q H1 eq_refl H2)).
Defined.

(** C6 as stated fails: a task with RemainingTime 0 is a row of the
    remainder table returned by the scheduler. *)
Lemma nonpositive_task_counterexample :
  let t := mkTask "P1" "S1" (Some 0%Q) in
  schedule_day_with_remaining demo_monday [t] demo_training demo_stations
    demo_operators = ([], [t]).
Proof. vm_compute. reflexivity. Qed.




(** ** Calendar loops *)

Lemma days_in_month_range y m : 28 <= days_in_month y m <= 31.
Proof.
  unfold days_in_month.
  destruct (m =? 2); [destruct (is_leap y); lia |].
  destruct (_ || _); lia.
Qed.

(** The loop of [business_days_in_month] leaves the month before its fuel
    is used up: more fuel does not change its result. *)
Lemma business_days_loop_fuel y m f1 f2 dd acc :
  1 <= m <= 12 -> 1 <= dd <= days_in_month y m ->
  days_in_month y m - dd < Z.of_nat f1 ->
  days_in_month y m - dd < Z.of_nat f2 ->
  business_days_loop f1 m (mkdate y m dd) acc
  = business_days_loop f2 m (mkdate y m dd) acc.
Proof.
  intros Hm. revert f2 dd acc.
  induction f1 as [| f1 IH]; intros f2 dd acc Hdd H1 H2; [lia |].
  destruct f2 as [| f2]; [lia |].
  cbn [business_days_loop]. cbn [month]. rewrite Z.eqb_refl.
  unfold next_day. cbn [day month year].
  destruct (dd <? days_in_month y m) eqn:Hlt.
  - apply IH; lia.
  - destruct (m <? 12) eqn:H12.
    + destruct f1, f2; cbn [business_days_loop month];
        try (destruct (m + 1 =? m) eqn:E; [lia |]); done.
    + destruct f1, f2; cbn [business_days_loop month];
        try (destruct (1 =? m) eqn:E; [lia |]); done.
Qed.

Lemma business_days_in_month_fuel y m (k : nat) :
  1 <= m <= 12 ->
  business_days_loop (32 + k) m (mkdate y m 1) [] = business_days_in_month y m.
Proof.
  intros Hm. pose proof (days_in_month_range y m).
  apply business_days_loop_fuel; lia.
Qed.

(** ** The weekly pool *)

Lemma subs_by_prod_fold times_df (m : gmap string (list string)) p :
  fold_left (fun m r =>
    <[tm_Product r := default [] (m !! tm_Product r) ++ [tm_Subsystem r]]> m)
    times_df m !! p
  = match map tm_Subsystem (filter (fun x => tm_Product x = p) times_df) with
    | [] => m !! p
    | l => Some (default [] (m !! p) ++ l)
    end.
Proof.
  revert m. induction times_df as [| x rest IH]; intros m; simpl; [done |].
  rewrite IH, filter_cons. destruct (decide (tm_Product x = p)) as [<- | Hne].
  - rewrite lookup_insert_eq. simpl.
    destruct (map _ _); simpl; [done | by rewrite <- app_assoc].
  - by rewrite lookup_insert_ne.
Qed.

Lemma subs_by_prod_lookup times_df p :
  subs_by_prod times_df !! p
  = match map tm_Subsystem (filter (fun x => tm_Product x = p) times_df) with
    | [] => None
    | l => Some l
    end.
Proof.
  unfold subs_by_prod. rewrite subs_by_prod_fold, lookup_empty.
  by destruct (map _ _).
Qed.

Lemma times_of_key times_df p s t :
  filter (fun x => tm_Product x = p) times_df = [mkTimes p s t] ->
  filter (fun x => same_key p s (tm_Product x) (tm_Subsystem x) = true) times_df
  = [mkTimes p s t].
Proof.
  intros H.
  rewrite (list_filter_iff _
             (fun x => tm_Subsystem x = s /\ tm_Product x = p)).
  - rewrite <- list_filter_filter, H, filter_cons. simpl.
    by rewrite decide_True.
  - intros x. unfold same_key. rewrite andb_true_iff, !bool_decide_eq_true.
    split; intros []; split; congruence.
Qed.

(** C7 (pool scenario).  With multiplier 1, one demand row of Quantity 20
    for the target month, one row of the time table for its product and a
    target month of 20 business days, the daily target is 1 and the pool
    holds exactly 5 tasks of that subsystem, each with its standard
    time. *)
Theorem weekly_pool_scenario demand_df times_df target_date r p s t :
  month_demand demand_df (year target_date) (month target_date) = [r] ->
  dm_Product r = p -> dm_Quantity r == 20 ->
  filter (fun x => tm_Product x = p) times_df = [mkTimes p s t] ->
  length (business_days_in_month (year target_date) (month target_date))
  = 20%nat ->
  daily_target (Qceiling (dm_Quantity r * 1)) 20 = 1
  /\ make_weekly_task_pool demand_df times_df target_date 1
     = Returned (replicate 5 (mkPool p s (Some t))).
Proof.
  intros Hm Hp Hq Ht Hb.
  assert (Hqty : Qceiling (dm_Quantity r * 1) = 20).
  { rewrite (Qceiling_comp _ (inject_Z 20)); [apply Qceiling_Z |].
    rewrite Hq. reflexivity. }
  split; [by rewrite Hqty |].
  unfold make_weekly_task_pool. rewrite Hm, Hb. simpl.
  unfold pool_rows_of. rewrite Hp, subs_by_prod_lookup, Ht, Hqty. simpl.
  unfold merge_left. simpl.
  rewrite (times_of_key _ _ _ _ Ht). done.
Qed.

Lemma weekly_pool_scenario_witness :
  month_demand demo_demand 2021 2 = [mkDemand 2021 2 "P1" 20]
  /\ 20 == 20
  /\ filter (fun x => tm_Product x = "P1"%string) demo_times
     = [mkTimes "P1" "S1" (5 # 2)]
  /\ length (business_days_in_month 2021 2) = 20%nat
  /\ daily_target (Qceiling (20 * 1)) 20 = 1
  /\ make_weekly_task_pool demo_demand demo_times demo_monday 1
     = Returned (replicate 5 (mkPool "P1" "S1" (Some (5 # 2)%Q))).
Proof.
  assert (H1 : month_demand demo_demand (year demo_monday) (month demo_monday)
               = [mkDemand 2021 2 "P1" 20]) by reflexivity.
  assert (H2 : 20 == 20) by reflexivity.
  assert (H3 : filter (fun x => tm_Product x = "P1"%string) demo_times
               = [mkTimes "P1" "S1" (5 # 2)]) by reflexivity.
  assert (H4 : length (business_days_in_month (year demo_monday)
                         (month demo_monday)) = 20%nat)
    by (vm_compute; reflexivity).
  split; [exact H1 |]. split; [exact H2 |]. split; [exact H3 |].
  split; [exact H4 |].
  exact (weekly_pool_scenario demo_demand demo_times demo_monday
           (mkDemand 2021 2 "P1" 20) "P1" "S1" (5 # 2) H1 eq_refl H2 H3 H4).
Defined.

(** ** Weeks without demand *)





(** ** Further properties of the time helpers *)

(** X1.  For minutes from 0 and a positive step, both below 2^52,
    [round_up_to_step] returns the least multiple of the step that is not
    below the given minutes.  In this range the binary64 quotient
    [minutes / step] of the source has the ceiling of the exact quotient
    (a quotient that is no integer differs from the integers by at least
    [1 / step], more than half the spacing of binary64 numbers of its
    size), and the product with the step is below 2^53, hence exact. *)
Theorem round_up_to_step_least m s :
  0 <= m < 2 ^ 52 -> 0 < s < 2 ^ 52 ->
  (s | round_up_to_step m s)
  /\ m <= round_up_to_step m s < m + s
  /\ forall k, m <= k * s -> round_up_to_step m s <= k * s.
Proof.
  intros _ [Hs _]. split; [| split].
  - destruct (round_up_multiple m s) as [k ->]. by exists k.
  - by apply round_up_bounds.
  - intros k Hk. rewrite <- (round_up_exact k s Hs).
    by apply round_up_mono.
Qed.

Lemma round_up_to_step_least_witness :
  0 <= 7 < 2 ^ 52 /\ 0 < 15 < 2 ^ 52
  /\ (15 | round_up_to_step 7 15)
  /\ 7 <= round_up_to_step 7 15 < 7 + 15
  /\ forall k, 7 <= k * 15 -> round_up_to_step 7 15 <= k * 15.
Proof.
  assert (Hm : 0 <= 7 < 2 ^ 52) by lia.
  assert (Hs : 0 < 15 < 2 ^ 52) by lia.
  split; [exact Hm |]. split; [exact Hs |].
  exact (round_up_to_step_least 7 15 Hm Hs).
Defined.

(** ** The first free slot *)

Lemma slot_loop_earliest fuel t dur step eod occ s e :
  0 <= step ->
  slot_loop fuel t dur step eod occ = Some (Some (s, e)) ->
  exists k : nat, s = t + Z.of_nat k * step
    /\ forall j : nat, (j < k)%nat ->
         can_place (t + Z.of_nat j * step) (t + Z.of_nat j * step + dur) occ
         = false.
Proof.
  intros Hstep. revert t. induction fuel as [| fuel IH]; intros t; simpl; [done |].
  destruct (t + dur <=? eod) eqn:Hfit; [| done].
  destruct (can_place t (t + dur) occ) eqn:Hfree.
  - intros [= <- <-]. exists 0%nat. split; [lia |]. intros j Hj. lia.
  - intros H. destruct (IH _ H) as (k & Hk & Hearly).
    exists (S k). split; [lia |]. intros [| j] Hj.
    + replace (t + Z.of_nat 0 * step) with t by lia. done.
    + replace (t + Z.of_nat (S j) * step)
        with (t + step + Z.of_nat j * step) by lia.
      apply Hearly. lia.
Qed.




(** ** Further properties of the pool builder *)

Lemma daily_target_pos qty n : 0 < daily_target qty n -> 0 < qty.
Proof.
  unfold daily_target, ceil_div. intros H.
  destruct (Z_lt_le_dec 0 qty) as [| Hq]; [done |].
  assert (0 <= (- qty) / Z.max 1 (Z.of_nat n)) by (apply Z.div_pos; lia).
  lia.
Qed.

Lemma Qceiling_pos (x : Q) : 0 < Qceiling x -> (0 < x)%Q.
Proof.
  intros H. pose proof (Qceiling_lt x) as Hlt.
  assert (inject_Z 0 <= inject_Z (Qceiling x - 1))%Q as Hle
    by (rewrite <- Zle_Qle; lia).
  change (inject_Z 0) with 0%Q in Hle. lra.
Qed.

Lemma pool_rows_of_elem subs n mult r p s :
  (p, s) ∈ pool_rows_of subs n mult r ->
  p = dm_Product r
  /\ (exists ss, subs !! p = Some ss /\ s ∈ ss)
  /\ (0 < dm_Quantity r * mult)%Q.
Proof.
  unfold pool_rows_of.
  destruct (subs !! dm_Product r) as [ss |] eqn:E;
    [| intros H; by apply elem_of_nil in H].
  intros H. apply list_elem_of_In, in_concat in H as (l & Hl & Hin).
  apply list_elem_of_In, elem_of_replicate in Hl as [-> Hk].
  apply in_map_iff in Hin as (s' & [= <- <-] & Hs).
  split; [done |]. split; [exists ss; split; [done | by apply list_elem_of_In] |].
  apply Qceiling_pos, (daily_target_pos _ n). lia.
Qed.




Lemma make_weekly_task_pool_returned demand_df times_df d mult pool :
  make_weekly_task_pool demand_df times_df d mult = Returned pool ->
  pool = []
  \/ pool
     = merge_left
         (fun '(p, s) t => same_key p s (tm_Product t) (tm_Subsystem t))
         (fun '(p, s) t => mkPool p s (tm_Time <$> t))
         (flat_map
            (pool_rows_of (subs_by_prod times_df)
               (length (business_days_in_month (year d) (month d))) mult)
            (month_demand demand_df (year d) (month d)))
         times_df.
Proof.
  unfold make_weekly_task_pool.
  destruct (month_demand demand_df (year d) (month d)) as [| r0 rs];
    [intros [= <-]; by left |].
  destruct (flat_map _ _) as [| row0 rows]; [done |].
  intros [= <-]. by right.
Qed.

(** X4.  Every task of a returned pool is backed by the tables: its
    (Product, Subsystem) is a row of the time table and its Time is the
    time of such a row, never missing; its product has a demand row of the
    target month whose demand is positive after the multiplier. *)
Theorem pool_rows_from_tables demand_df times_df d mult pool row :
  make_weekly_task_pool demand_df times_df d mult = Returned pool ->
  row ∈ pool ->
  exists t r,
    t ∈ times_df /\ tm_Product t = pl_Product row
    /\ tm_Subsystem t = pl_Subsystem row /\ pl_Time row = Some (tm_Time t)
    /\ r ∈ month_demand demand_df (year d) (month d)
    /\ dm_Product r = pl_Product row /\ (0 < dm_Quantity r * mult)%Q.
Proof.
  intros Hret Hrow.
  apply make_weekly_task_pool_returned in Hret as [-> | ->];
    [by apply elem_of_nil in Hrow |].
  apply merge_left_inv in Hrow as ([p s] & Hps & Hcase).
  apply list_elem_of_In, in_flat_map in Hps as (r & Hr & Hps).
  apply list_elem_of_In in Hr, Hps.
  apply pool_rows_of_elem in Hps as (-> & (ss & Hss & Hs) & Hq).
  rewrite subs_by_prod_lookup in Hss.
  assert (Hs' : s ∈ map tm_Subsystem
                  (filter (fun x => tm_Product x = dm_Product r) times_df)).
  { destruct (map _ _); [done |]. by injection Hss as ->. }
  apply list_elem_of_fmap in Hs' as (t0 & -> & Ht0).
  apply list_elem_of_filter in Ht0 as [Hp0 Ht0].
  destruct Hcase as [[Hnone _] | (t & Ht & Hm & ->)].
  - assert (Hin : t0 ∈ filter
                    (fun t => same_key (dm_Product r) (tm_Subsystem t0)
                                (tm_Product t) (tm_Subsystem t) = true) times_df).
    { apply list_elem_of_filter. split; [| done].
      unfold same_key. rewrite Hp0, !bool_decide_eq_true_2; done. }
    rewrite Hnone in Hin. by apply elem_of_nil in Hin.
  - unfold same_key in Hm. apply andb_prop in Hm as [Hp Hsb].
    apply bool_decide_eq_true in Hp, Hsb.
    exists t, r. simpl. repeat split; try done.
Qed.

Lemma pool_rows_from_tables_witness :
  make_weekly_task_pool demo_demand demo_times demo_monday 1
  = Returned (replicate 5 (mkPool "P1" "S1" (Some (5 # 2)%Q)))
  /\ mkPool "P1" "S1" (Some (5 # 2)%Q)
     ∈ replicate 5 (mkPool "P1" "S1" (Some (5 # 2)%Q))
  /\ exists t r,
       t ∈ demo_times /\ tm_Product t = "P1"%string
       /\ tm_Subsystem t = "S1"%string /\ Some (5 # 2)%Q = Some (tm_Time t)
       /\ r ∈ month_demand demo_demand 2021 2
       /\ dm_Product r = "P1"%string /\ (0 < dm_Quantity r * 1)%Q.
Proof.
  assert (H1 : make_weekly_task_pool demo_demand demo_times demo_monday 1
               = Returned (replicate 5 (mkPool "P1" "S1" (Some (5 # 2)%Q))))
    by (vm_compute; reflexivity).
  assert (H2 : mkPool "P1" "S1" (Some (5 # 2)%Q)
               ∈ replicate 5 (mkPool "P1" "S1" (Some (5 # 2)%Q)))
    by (simpl; left).
  split; [exact H1 |]. split; [exact H2 |].
  exact (pool_rows_from_tables demo_demand demo_times demo_monday 1 _ _ H1 H2).
Defined.

(** ** Further properties of the day scheduler *)

(** X5.  An operator who is not in the day's available set receives no
    assignment. *)
Theorem availability_respected d tasks trainings stations available a :
  a ∈ (schedule_day_with_remaining d tasks trainings stations available).1 ->
  operator a ∈ available.
Proof.
  intros Ha.
  destruct (Z_lt_le_dec (weekday d) 5) as [Hwd | Hwd].
  - destruct (schedule_day_weekday d tasks trainings stations available Hwd)
      as (st & rows & _ & Hres & I & _).
    rewrite Hres in Ha. simpl in Ha.
    pose proof (inv_asg _ _ _ _ _ I) as Hall.
    rewrite Forall_forall in Hall. apply (ok_available _ _ _ _ _ (Hall _ Ha)).
  - rewrite schedule_day_weekend in Ha by done. by apply elem_of_nil in Ha.
Qed.

Lemma availability_respected_witness :
  demo_a1 ∈ (schedule_day_with_remaining demo_monday demo_tasks demo_training
               demo_stations demo_operators).1
  /\ operator demo_a1 ∈ demo_operators.
Proof.
  assert (H : demo_a1 ∈ (schedule_day_with_remaining demo_monday demo_tasks
                           demo_training demo_stations demo_operators).1).
  { rewrite demo_monday_run. simpl. set_solver. }
  split; [exact H |].
  exact (availability_respected demo_monday demo_tasks demo_training
           demo_stations demo_operators demo_a1 H).
Defined.

Lemma round2_exact (x : Q) (k : Z) : x * 100 == inject_Z k -> round2 x == x.
Proof.
  intros Hk. destruct (round2_spec x) as (n & -> & Hlo & Hhi).
  rewrite Hk in Hlo, Hhi.
  assert (n = k) as ->.
  { assert (inject_Z n < inject_Z (k + 1))%Q as H1
      by (rewrite inject_Z_plus; change (inject_Z 1) with 1%Q; lra).
    assert (inject_Z k < inject_Z (n + 1))%Q as H2
      by (rewrite inject_Z_plus; change (inject_Z 1) with 1%Q; lra).
    rewrite <- Zlt_Qlt in H1, H2. lia. }
  rewrite (Qmake_Qdiv k 100). change (inject_Z (Z.pos 100)) with 100%Q.
  rewrite <- Hk. field.
Qed.

(** X6.  Every assignment lasts a positive whole number of 15-minute steps,
    its DurationHours is exactly that many quarter hours, and rounding it
    to two decimals for the proposal output changes nothing. *)
Theorem durations_exact d tasks trainings stations available a :
  a ∈ (schedule_day_with_remaining d tasks trainings stations available).1 ->
  exists n, 0 < n /\ end_ a - start a = n * TIME_STEP_MIN
    /\ duration_h a == inject_Z n / 4
    /\ forall i, o_DurationHours (out_row i a) == duration_h a.
Proof.
  intros Ha.
  destruct (Z_lt_le_dec (weekday d) 5) as [Hwd | Hwd].
  - destruct (schedule_day_weekday d tasks trainings stations available Hwd)
      as (st & rows & _ & Hres & I & _).
    rewrite Hres in Ha. simpl in Ha.
    pose proof (inv_asg _ _ _ _ _ I) as Hall.
    rewrite Forall_forall in Hall. specialize (Hall _ Ha).
    destruct (ok_len _ _ _ _ _ Hall) as (n & Hn & He).
    pose proof (ok_hours _ _ _ _ _ Hall) as Hh.
    assert (Hd : end_ a - start a = n * TIME_STEP_MIN) by lia.
    assert (Hq : duration_h a == inject_Z n / 4).
    { rewrite Hh, Hd. unfold TIME_STEP_MIN. rewrite inject_Z_mult.
      change (inject_Z 15) with 15%Q. field. }
    exists n. repeat split; try done.
    intros i. simpl. apply (round2_exact _ (n * 25)).
    rewrite Hq, inject_Z_mult. change (inject_Z 25) with 25%Q. field.
  - rewrite schedule_day_weekend in Ha by done. by apply elem_of_nil in Ha.
Qed.

Lemma durations_exact_witness :
  demo_a1 ∈ (schedule_day_with_remaining demo_monday demo_tasks demo_training
               demo_stations demo_operators).1
  /\ exists n, 0 < n /\ end_ demo_a1 - start demo_a1 = n * TIME_STEP_MIN
       /\ duration_h demo_a1 == inject_Z n / 4
       /\ forall i, o_DurationHours (out_row i demo_a1) == duration_h demo_a1.
Proof.
  assert (H : demo_a1 ∈ (schedule_day_with_remaining demo_monday demo_tasks
                           demo_training demo_stations demo_operators).1).
  { rewrite demo_monday_run. simpl. set_solver. }
  split; [exact H |].
  exact (durations_exact demo_monday demo_tasks demo_training
           demo_stations demo_operators demo_a1 H).
Defined.

Lemma cand_ops_none trained available st prod sub :
  (forall r, r ∈ trained -> tr_Operator r ∉ available) ->
  cand_ops trained available st prod sub = [].
Proof.
  intros Hno. pose proof (cand_ops_eligible trained available st prod sub) as H.
  destruct (cand_ops trained available st prod sub) as [| op ops]; [done |].
  apply Forall_cons in H as [[Hin (r & Hr & <- & _)] _].
  by destruct (Hno r Hr).
Qed.

Lemma schedule_rows_no_operator day_start base trained available tasks st rows0 :
  (forall r, r ∈ trained -> tr_Operator r ∉ available) ->
  schedule_rows day_start base trained available tasks st rows0
  = (st, rows0 ++ map (fun t => mkTask (dt_Product t) (dt_Subsystem t)
                                  (Some (dt_RemainingTime t))) tasks).
Proof.
  intros Hno. revert rows0.
  induction tasks as [| task tasks IH]; intros rows0; simpl.
  - by rewrite app_nil_r.
  - unfold schedule_task. rewrite (cand_ops_none _ _ _ _ _ Hno). simpl.
    rewrite IH, <- app_assoc. done.
Qed.

(** *** Processing order *)

Lemma insert_desc_perm {A} (lt : A -> A -> bool) x l :
  insert_desc lt x l ≡ₚ x :: l.
Proof.
  induction l as [| y l IH]; simpl; [done |].
  destruct (lt x y); [| done]. rewrite IH. apply Permutation_swap.
Qed.

Lemma sort_desc_perm {A} (lt : A -> A -> bool) l : sort_desc lt l ≡ₚ l.
Proof.
  unfold sort_desc. induction l as [| x l IH]; simpl; [done |].
  by rewrite insert_desc_perm, IH.
Qed.

Lemma sort_desc_sorted {A} (lt : A -> A -> bool) l :
  (forall a b, lt a b = true -> lt b a = false) ->
  (forall a b c, lt a b = false -> lt b c = false -> lt a c = false) ->
  StronglySorted (fun a b => lt a b = false) (sort_desc lt l).
Proof.
  intros Hasym Htrans. unfold sort_desc.
  induction l as [| x l IH]; simpl; [constructor |].
  induction IH as [| y l' Hs IH' Hall]; simpl; [repeat constructor |].
  destruct (lt x y) eqn:E.
  - constructor; [done |].
    apply Forall_forall. intros z Hz.
    rewrite insert_desc_perm in Hz. apply elem_of_cons in Hz as [-> | Hz].
    + by apply Hasym.
    + rewrite Forall_forall in Hall. by apply Hall.
  - constructor; [by constructor |].
    constructor; [done |].
    eapply Forall_impl; [exact Hall |]. intros z Hz. simpl in Hz.
    by apply (Htrans _ y).
Qed.

Lemma StronglySorted_weaken {A} (R S : A -> A -> Prop) l :
  (forall a b, R a b -> S a b) -> StronglySorted R l -> StronglySorted S l.
Proof.
  intros H. induction 1 as [| x l Hs IH Hall]; constructor; [done |].
  eapply Forall_impl; [exact Hall |]. intros z Hz. by apply H.
Qed.

Lemma StronglySorted_map {A B} (R : B -> B -> Prop) (f : A -> B) l :
  StronglySorted (fun a b => R (f a) (f b)) l -> StronglySorted R (map f l).
Proof.
  induction 1 as [| x l Hs IH Hall]; simpl; constructor; [done |].
  apply Forall_forall. intros y Hy.
  apply list_elem_of_fmap in Hy as (z & -> & Hz).
  rewrite Forall_forall in Hall. by apply Hall.
Qed.

Lemma day_tasks_merged tasks stations :
  day_tasks tasks stations ≡ₚ merged_tasks tasks stations
  /\ StronglySorted (fun a b => (dt_RemainingTime b <= dt_RemainingTime a)%Q)
       (day_tasks tasks stations).
Proof.
  split; [apply sort_desc_perm |].
  unfold day_tasks.
  eapply StronglySorted_weaken; [| apply sort_desc_sorted].
  - intros a b H. simpl in H. destruct (Qlt_le_dec _ _); done.
  - intros a b H. destruct (Qlt_le_dec _ _) as [H1 |]; [| done].
    destruct (Qlt_le_dec _ _) as [H2 |]; [lra | done].
  - intros a b c H1 H2.
    destruct (Qlt_le_dec (dt_RemainingTime a) (dt_RemainingTime b)); [done |].
    destruct (Qlt_le_dec (dt_RemainingTime b) (dt_RemainingTime c)); [done |].
    destruct (Qlt_le_dec (dt_RemainingTime a) (dt_RemainingTime c)); [lra | done].
Qed.

(** X7.  On a working day on which no trained operator is available (in
    particular with an empty available set) the scheduler commits nothing
    and carries every row forward with its RemainingTime unchanged: the
    remainder table holds the rows of the merged task table that have a
    RemainingTime, each as often as the merge has it, in descending order
    of RemainingTime.  The order among rows of equal RemainingTime is left
    open, as the sort of the source decides it. *)
Theorem no_operator_no_assignment d tasks trainings stations available :
  weekday d < 5 ->
  (forall r, r ∈ trainings -> tr_Trained r = "Y"%string ->
             tr_Operator r ∉ available) ->
  let r := schedule_day_with_remaining d tasks trainings stations available in
  r.1 = []
  /\ r.2 ≡ₚ map (fun t => mkTask (dt_Product t) (dt_Subsystem t)
                            (Some (dt_RemainingTime t)))
              (merged_tasks tasks stations)
  /\ StronglySorted
       (fun a b => (default 0 (RemainingTime b) <= default 0 (RemainingTime a))%Q)
       r.2.
Proof.
  intros Hwd Hno r. unfold r. clear r.
  destruct (schedule_day_weekday d tasks trainings stations available Hwd)
    as (st & rows & Hrun & Hres & _ & _).
  rewrite Hres. rewrite schedule_rows_no_operator in Hrun.
  2: { intros r Hr. apply list_elem_of_filter in Hr as [HY Hr]. by apply Hno. }
  injection Hrun as <- <-. cbn [fst snd init_state assignments app].
  destruct (day_tasks_merged tasks stations) as [Hperm Hsorted].
  split; [done |]. split.
  - by apply Permutation_map.
  - apply StronglySorted_map. exact Hsorted.
Qed.

Lemma no_operator_no_assignment_witness :
  let r := schedule_day_with_remaining demo_monday demo_tasks demo_training
             demo_stations ∅ in
  weekday demo_monday < 5
  /\ r.1 = []
  /\ r.2 ≡ₚ map (fun t => mkTask (dt_Product t) (dt_Subsystem t)
                            (Some (dt_RemainingTime t)))
              (merged_tasks demo_tasks demo_stations).
Proof.
  intros r.
  assert (H : weekday demo_monday < 5) by (vm_compute; reflexivity).
  split; [exact H |].
  assert (Hno : forall r, r ∈ demo_training -> tr_Trained r = "Y"%string ->
                  tr_Operator r ∉ (∅ : gset string))
    by (intros r0 _ _; apply not_elem_of_empty).
  pose proof (no_operator_no_assignment demo_monday demo_tasks demo_training
                demo_stations ∅ H Hno) as (H1 & H2 & _).
  split; [exact H1 | exact H2].
Defined.

Lemma schedule_rows_sources day_start base trained available tasks st rows0 a :
  a ∈ assignments
        (schedule_rows day_start base trained available tasks st rows0).1 ->
  a ∈ assignments st
  \/ exists task, task ∈ tasks /\ product a = dt_Product task
       /\ subsystem a = dt_Subsystem task /\ workcell a = dt_Workcell task
       /\ (0 < dt_RemainingTime task)%Q.
Proof.
  revert st rows0. induction tasks as [| task tasks IH]; intros st rows0; simpl;
    [by left |].
  destruct (schedule_task_trace day_start base trained available st task)
    as (seg & Hseg & Hkey & _).
  destruct (Qlt_le_dec 0 (dt_RemainingTime task)) as [Hpos | Hle].
  - destruct (schedule_task _ _ _ _ st task) as [st' row]. simpl in *.
    intros Ha. apply IH in Ha as [Ha | (task' & Ht' & Hrest)].
    + rewrite Hseg in Ha. apply elem_of_app in Ha as [Ha | Ha]; [by left |].
      right. exists task. rewrite Forall_forall in Hkey.
      destruct (Hkey _ Ha) as (? & ? & ?). repeat split; try done. by left.
    + right. exists task'. split; [by right | done].
  - rewrite schedule_task_nonpositive by done.
    intros Ha. apply IH in Ha as [Ha | (task' & Ht' & Hrest)]; [by left |].
    right. exists task'. split; [by right | done].
Qed.

(** X8.  Every assignment comes from the tables: a row of the task table
    with the same Product and Subsystem and a positive RemainingTime, and
    its Workcell is the one a row of the stations table gives for that
    Product and Subsystem (it is missing exactly when no such row
    exists). *)
Theorem assignment_from_tables d tasks trainings stations available a :
  a ∈ (schedule_day_with_remaining d tasks trainings stations available).1 ->
  exists t h,
    t ∈ tasks /\ Product t = product a /\ Subsystem t = subsystem a
    /\ RemainingTime t = Some h /\ (0 < h)%Q
    /\ match workcell a with
       | Some w => exists s, s ∈ stations /\ stn_Product s = product a
                     /\ stn_Subsystem s = subsystem a /\ stn_Workcell s = w
       | None => forall s, s ∈ stations ->
                   ~ (stn_Product s = product a /\ stn_Subsystem s = subsystem a)
       end.
Proof.
  intros Ha.
  destruct (Z_lt_le_dec (weekday d) 5) as [Hwd | Hwd].
  - destruct (schedule_day_weekday d tasks trainings stations available Hwd)
      as (st & rows & Hrun & Hres & _ & _).
    rewrite Hres in Ha. simpl in Ha.
    pose proof (schedule_rows_sources (dt_combine d START_TIME)
                  (base_minutes_of (weekday d))
                  (filter (fun r => tr_Trained r = "Y"%string) trainings)
                  available (day_tasks tasks stations)
                  (init_state (base_minutes_of (weekday d)) available) [] a) as H.
    rewrite Hrun in H. destruct (H Ha) as [Hnil | (task & Ht & Hp & Hs & Hw & Hpos)].
    { by apply elem_of_nil in Hnil. }
    apply day_tasks_inv in Ht as (t & Ht & Hp' & Hs' & Hh & Hwc).
    exists t, (dt_RemainingTime task).
    rewrite Hp, Hs, Hw. repeat split; try done.
    rewrite <- Hp', <- Hs'. done.
  - rewrite schedule_day_weekend in Ha by done. by apply elem_of_nil in Ha.
Qed.

Lemma assignment_from_tables_witness :
  demo_a2 ∈ (schedule_day_with_remaining demo_monday demo_tasks demo_training
               demo_stations demo_operators).1
  /\ exists t h,
       t ∈ demo_tasks /\ Product t = "P1"%string /\ Subsystem t = "S2"%string
       /\ RemainingTime t = Some h /\ (0 < h)%Q
       /\ exists s, s ∈ demo_stations /\ stn_Product s = "P1"%string
            /\ stn_Subsystem s = "S2"%string /\ stn_Workcell s = "W1"%string.
Proof.
  assert (H : demo_a2 ∈ (schedule_day_with_remaining demo_monday demo_tasks
                           demo_training demo_stations demo_operators).1).
  { rewrite demo_monday_run. simpl. set_solver. }
  split; [exact H |].
  exact (assignment_from_tables demo_monday demo_tasks demo_training
           demo_stations demo_operators demo_a2 H).
Defined.

Lemma assign_ops_mono day_start base prod sub wc remain_h ops sched st :
  (sched <= (assign_ops day_start base prod sub wc remain_h ops sched st).1)%Q.
Proof.
  revert sched st. induction ops as [| op ops IH]; intros sched st; simpl;
    [apply Qle_refl |].
  destruct (Qle_bool remain_h sched) eqn:Hbrk; [apply Qle_refl |].
  apply Qle_bool_false in Hbrk.
  destruct (try_operator_cases day_start base prod sub wc remain_h op sched st Hbrk)
    as [[Hs _] | (a & _ & _ & _ & _ & C)];
    destruct (try_operator _ _ _ _ _ _ _ _ _) as [h st']; simpl in *.
  - subst h. apply IH.
  - eapply Qle_trans; [| apply IH].
    rewrite (cm_sched _ _ _ _ _ _ _ _ C), (cm_hours _ _ _ _ _ _ _ _ C).
    destruct (cm_len _ _ _ _ _ _ _ _ C) as (n & Hn & Hlen).
    assert (inject_Z 0 <= inject_Z (end_ a - start a))%Q as Hd
      by (rewrite <- Zle_Qle; unfold TIME_STEP_MIN in Hlen; lia).
    change (inject_Z 0) with 0%Q in Hd.
    assert (0 <= inject_Z (end_ a - start a) / 60)%Q
      by (apply Qle_shift_div_l; lra).
    lra.
Qed.

Lemma schedule_task_row day_start base trained available st task r :
  (schedule_task day_start base trained available st task).2 = Some r ->
  Product r = dt_Product task /\ Subsystem r = dt_Subsystem task
  /\ exists h', RemainingTime r = Some h'
       /\ (h' = dt_RemainingTime task
           \/ ((0 < h')%Q /\ (h' <= dt_RemainingTime task + (1 # 200))%Q
               /\ exists n, h' = (n # 100)%Q)).
Proof.
  unfold schedule_task.
  destruct (_ || _).
  - simpl. intros [= <-]. simpl. split; [done |]. split; [done |].
    eexists; split; [reflexivity |]. by left.
  - pose proof (assign_ops_mono day_start base (dt_Product task)
                  (dt_Subsystem task) (dt_Workcell task) (dt_RemainingTime task)
                  (sorted_ops st (cand_ops trained available st
                                    (dt_Product task) (dt_Subsystem task)))
                  0 st) as Hmono.
    destruct (assign_ops _ _ _ _ _ _ _ _ _) as [h st']. simpl in *.
    destruct (Qlt_le_dec 0 _) as [Hpos | Hle]; [| done].
    intros [= <-]. simpl. split; [done |]. split; [done |].
    eexists; split; [reflexivity |]. right.
    unfold max_h in *.
    pose proof (round2_close (dt_RemainingTime task - h)) as [_ Hhi].
    destruct (round2_spec (dt_RemainingTime task - h)) as (n & Hn & _).
    destruct (Qlt_le_dec 0 (round2 (dt_RemainingTime task - h))); [| lra].
    split; [done |]. split; [lra |]. exists n. done.
Qed.

Lemma schedule_rows_remainder day_start base trained available tasks st rows0 r :
  r ∈ (schedule_rows day_start base trained available tasks st rows0).2 ->
  r ∈ rows0
  \/ exists task st0, task ∈ tasks
       /\ (schedule_task day_start base trained available st0 task).2 = Some r.
Proof.
  revert st rows0. induction tasks as [| task tasks IH]; intros st rows0; simpl;
    [by left |].
  destruct (schedule_task _ _ _ _ st task) as [st' row] eqn:E.
  intros Hr. apply IH in Hr as [Hr | (task' & st0 & Ht' & Hrow)].
  - destruct row as [r' |]; [| by left].
    apply elem_of_app in Hr as [Hr | Hr]; [by left |].
    apply list_elem_of_singleton in Hr as ->.
    right. exists task, st. split; [by left |]. by rewrite E.
  - right. exists task', st0. split; [by right | done].
Qed.

Lemma schedule_rows_length day_start base trained available tasks st rows0 :
  (length (schedule_rows day_start base trained available tasks st rows0).2
   <= length rows0 + length tasks)%nat.
Proof.
  revert st rows0. induction tasks as [| task tasks IH]; intros st rows0; simpl;
    [lia |].
  destruct (schedule_task _ _ _ _ st task) as [st' [r |]].
  - etransitivity; [apply IH |]. rewrite length_app. simpl. lia.
  - etransitivity; [apply IH |]. lia.
Qed.

(** X9.  On a working day the remainder table has at most one row per
    processed task row, and each of its rows continues a row of the task
    table with the same Product and Subsystem: its RemainingTime is either
    that of the task, unchanged, or a positive value that exceeds the
    task's RemainingTime by no more than the tolerance of 0.01 h (the
    remainder is what is left of the task, rounded to two decimals). *)
Theorem remainder_rows_bounded d tasks trainings stations available :
  weekday d < 5 ->
  let rem := (schedule_day_with_remaining d tasks trainings stations available).2 in
  (length rem <= length (day_tasks tasks stations))%nat
  /\ forall r, r ∈ rem ->
       exists t h h',
         t ∈ tasks /\ Product t = Product r /\ Subsystem t = Subsystem r
         /\ RemainingTime t = Some h /\ RemainingTime r = Some h'
         /\ (h' = h \/ ((0 < h')%Q /\ (h' <= h + (1 # 100))%Q)).
Proof.
  intros Hwd rem. unfold rem.
  destruct (schedule_day_weekday d tasks trainings stations available Hwd)
    as (st & rows & Hrun & Hres & _ & _).
  rewrite Hres. simpl.
  pose proof (schedule_rows_length (dt_combine d START_TIME)
                (base_minutes_of (weekday d))
                (filter (fun r => tr_Trained r = "Y"%string) trainings)
                available (day_tasks tasks stations)
                (init_state (base_minutes_of (weekday d)) available) []) as Hlen.
  rewrite Hrun in Hlen. split; [done |].
  intros r Hr.
  pose proof (schedule_rows_remainder (dt_combine d START_TIME)
                (base_minutes_of (weekday d))
                (filter (fun r => tr_Trained r = "Y"%string) trainings)
                available (day_tasks tasks stations)
                (init_state (base_minutes_of (weekday d)) available) [] r) as H.
  rewrite Hrun in H. destruct (H Hr) as [Hnil | (task & st0 & Ht & Hrow)].
  { by apply elem_of_nil in Hnil. }
  apply schedule_task_row in Hrow as (Hp & Hs & h' & Hh' & Hcase).
  apply day_tasks_inv in Ht as (t & Ht & Hp' & Hs' & Hh & _).
  exists t, (dt_RemainingTime task), h'.
  split; [done |]. split; [congruence |]. split; [congruence |].
  split; [done |]. split; [done |].
  destruct Hcase as [-> | (Hpos & Hle & _)]; [by left | right].
  split; [done | lra].
Qed.

Lemma remainder_rows_bounded_witness :
  let rem := (schedule_day_with_remaining demo_monday
                [mkTask "P1" "S1" (Some (10 # 1)%Q)] demo_training demo_stations
                {["op1"%string]}).2 in
  weekday demo_monday < 5
  /\ rem = [mkTask "P1" "S1" (Some (200 # 100)%Q)]
  /\ (length rem <= 1)%nat.
Proof.
  intros rem.
  assert (H : weekday demo_monday < 5) by (vm_compute; reflexivity).
  split; [exact H |]. split; [vm_compute; reflexivity |].
  exact (proj1 (remainder_rows_bounded demo_monday
                  [mkTask "P1" "S1" (Some (10 # 1)%Q)] demo_training
                  demo_stations {["op1"%string]} H)).
Defined.

(** ** Calendar arithmetic *)

Lemma days_before_year_succ y :
  days_before_year (y + 1)
  = days_before_year y + 365 + (if is_leap y then 1 else 0).
Proof.
  unfold days_before_year, is_leap.
  replace (y + 1 - 1) with y by lia.
  destruct (y mod 4 =? 0) eqn:E4, (y mod 100 =? 0) eqn:E100,
    (y mod 400 =? 0) eqn:E400; simpl;
    apply Z.eqb_eq in E4 || apply Z.eqb_neq in E4;
    apply Z.eqb_eq in E100 || apply Z.eqb_neq in E100;
    apply Z.eqb_eq in E400 || apply Z.eqb_neq in E400;
    Z.to_euclidean_division_equations; lia.
Qed.

Lemma days_before_month_succ y m :
  1 <= m ->
  days_before_month y (m + 1) = days_before_month y m + days_in_month y m.
Proof.
  intros Hm. unfold days_before_month.
  replace (Z.to_nat (m + 1 - 1)) with (S (Z.to_nat (m - 1))) by lia.
  cbn [days_before_month_aux]. f_equal. f_equal. lia.
Qed.

Lemma days_before_month_end y :
  days_before_month y 12 + days_in_month y 12
  = 365 + (if is_leap y then 1 else 0).
Proof.
  unfold days_before_month. simpl. unfold days_in_month. simpl.
  destruct (is_leap y); lia.
Qed.

Lemma next_day_ordinal d :
  valid_date d ->
  toordinal (next_day d) = toordinal d + 1 /\ valid_date (next_day d).
Proof.
  intros [Hm Hd]. pose proof (days_in_month_range (year d) (month d)).
  unfold next_day, toordinal, valid_date.
  destruct (day d <? days_in_month (year d) (month d)) eqn:E1; simpl.
  - split; lia.
  - destruct (month d <? 12) eqn:E2; simpl.
    + pose proof (days_in_month_range (year d) (month d + 1)).
      rewrite days_before_month_succ by lia. split; lia.
    + assert (month d = 12) as H12 by lia.
      rewrite days_before_year_succ.
      pose proof (days_before_month_end (year d)) as He.
      assert (H31 : days_in_month (year d + 1) 1 = 31) by reflexivity.
      assert (H0 : days_before_month (year d + 1) 1 = 0) by reflexivity.
      rewrite H12 in *. rewrite H0, H31.
      destruct (is_leap (year d)); split; lia.
Qed.

Lemma prev_day_ordinal d :
  valid_date d ->
  toordinal (prev_day d) = toordinal d - 1 /\ valid_date (prev_day d).
Proof.
  intros [Hm Hd]. pose proof (days_in_month_range (year d) (month d)).
  unfold prev_day, toordinal, valid_date.
  destruct (1 <? day d) eqn:E1; simpl.
  - split; lia.
  - destruct (1 <? month d) eqn:E2; simpl.
    + pose proof (days_in_month_range (year d) (month d - 1)).
      pose proof (days_before_month_succ (year d) (month d - 1) ltac:(lia)) as Hs.
      replace (month d - 1 + 1) with (month d) in Hs by lia.
      split; lia.
    + assert (month d = 1) as H1 by lia.
      pose proof (days_before_year_succ (year d - 1)) as Hy.
      replace (year d - 1 + 1) with (year d) in Hy by lia.
      pose proof (days_before_month_end (year d - 1)) as He.
      assert (H31 : days_in_month (year d - 1) 12 = 31) by reflexivity.
      assert (H0 : days_before_month (year d) 1 = 0) by reflexivity.
      rewrite H1, H0. rewrite H31 in *.
      destruct (is_leap (year d - 1)); split; lia.
Qed.

Lemma iter_next_day_ordinal (n : nat) d :
  valid_date d ->
  toordinal (Nat.iter n next_day d) = toordinal d + Z.of_nat n
  /\ valid_date (Nat.iter n next_day d).
Proof.
  intros Hd. induction n as [| n [IH1 IH2]];
    [unfold Nat.iter; cbn [nat_rect]; split; [lia | done] |].
  change (Nat.iter (S n) next_day d) with (next_day (Nat.iter n next_day d)).
  destruct (next_day_ordinal _ IH2). split; [lia | done].
Qed.

Lemma iter_prev_day_ordinal (n : nat) d :
  valid_date d ->
  toordinal (Nat.iter n prev_day d) = toordinal d - Z.of_nat n
  /\ valid_date (Nat.iter n prev_day d).
Proof.
  intros Hd. induction n as [| n [IH1 IH2]];
    [unfold Nat.iter; cbn [nat_rect]; split; [lia | done] |].
  change (Nat.iter (S n) prev_day d) with (prev_day (Nat.iter n prev_day d)).
  destruct (prev_day_ordinal _ IH2). split; [lia | done].
Qed.

Lemma add_days_ordinal d n :
  valid_date d ->
  toordinal (add_days d n) = toordinal d + n /\ valid_date (add_days d n).
Proof.
  intros Hd. unfold add_days. destruct (0 <=? n) eqn:E.
  - destruct (iter_next_day_ordinal (Z.to_nat n) d Hd). split; [lia | done].
  - destruct (iter_prev_day_ordinal (Z.to_nat (- n)) d Hd). split; [lia | done].
Qed.

Lemma week_monday_ordinal d :
  valid_date d ->
  valid_date (week_monday d)
  /\ weekday (week_monday d) = 0
  /\ toordinal (week_monday d) = toordinal d - weekday d.
Proof.
  intros Hd. pose proof (weekday_range d) as Hr.
  destruct (add_days_ordinal d (- weekday d) Hd) as [Ho Hv].
  fold (week_monday d) in Ho, Hv.
  split; [done |]. split; [| done].
  unfold weekday at 1. rewrite Ho. unfold weekday.
  Z.to_euclidean_division_equations; lia.
Qed.

(** X10.  [week_monday] of a date is a date of the calendar that falls on
    a Monday, on or before the given date and at most six days before it;
    a Monday is its own week start. *)
Theorem week_monday_spec d :
  valid_date d ->
  valid_date (week_monday d)
  /\ weekday (week_monday d) = 0
  /\ toordinal (week_monday d) = toordinal d - weekday d
  /\ toordinal d - 6 <= toordinal (week_monday d) <= toordinal d
  /\ week_monday (week_monday d) = week_monday d.
Proof.
  intros Hd. pose proof (weekday_range d) as Hr.
  destruct (week_monday_ordinal d Hd) as (Hv & Hw & Ho).
  split; [done |]. split; [done |]. split; [lia |]. split; [lia |].
  change (week_monday (week_monday d))
    with (add_days (week_monday d) (- weekday (week_monday d))).
  rewrite Hw. reflexivity.
Qed.

Lemma week_monday_spec_witness :
  valid_date (mkdate 2022 3 2)
  /\ valid_date (week_monday (mkdate 2022 3 2))
  /\ weekday (week_monday (mkdate 2022 3 2)) = 0
  /\ toordinal (week_monday (mkdate 2022 3 2))
     = toordinal (mkdate 2022 3 2) - weekday (mkdate 2022 3 2)
  /\ toordinal (mkdate 2022 3 2) - 6 <= toordinal (week_monday (mkdate 2022 3 2))
     <= toordinal (mkdate 2022 3 2)
  /\ week_monday (week_monday (mkdate 2022 3 2)) = week_monday (mkdate 2022 3 2).
Proof.
  assert (H : valid_date (mkdate 2022 3 2)) by (vm_compute; repeat split; discriminate).
  split; [exact H |]. exact (week_monday_spec (mkdate 2022 3 2) H).
Defined.

(** ** The business days of a month *)

Lemma business_days_loop_spec y m fuel dd acc :
  1 <= m <= 12 -> 1 <= dd <= days_in_month y m ->
  days_in_month y m - dd < Z.of_nat fuel ->
  business_days_loop fuel m (mkdate y m dd) acc
  = acc ++ filter (fun d => weekday d < 5)
             (map (mkdate y m) (seqZ dd (days_in_month y m - dd + 1))).
Proof.
  intros Hm. revert dd acc.
  induction fuel as [| fuel IH]; intros dd acc Hdd Hf; [lia |].
  cbn [business_days_loop month]. rewrite Z.eqb_refl.
  rewrite (seqZ_cons dd) by lia. cbn [map]. rewrite filter_cons.
  replace (Z.pred (days_in_month y m - dd + 1)) with (days_in_month y m - dd)
    by lia.
  assert (Hacc : (if weekday (mkdate y m dd) <? 5
                  then acc ++ [mkdate y m dd] else acc)
                 ++ filter (fun d => weekday d < 5)
                      (map (mkdate y m) (seqZ (Z.succ dd) (days_in_month y m - dd)))
                 = acc ++ (if decide (weekday (mkdate y m dd) < 5)
                           then mkdate y m dd
                                :: filter (fun d => weekday d < 5)
                                     (map (mkdate y m)
                                        (seqZ (Z.succ dd) (days_in_month y m - dd)))
                           else filter (fun d => weekday d < 5)
                                  (map (mkdate y m)
                                     (seqZ (Z.succ dd) (days_in_month y m - dd))))).
  { destruct (weekday (mkdate y m dd) <? 5) eqn:E.
    - rewrite decide_True by lia. by rewrite <- app_assoc.
    - rewrite decide_False by lia. done. }
  rewrite <- Hacc. clear Hacc.
  unfold next_day. cbn [day month year].
  destruct (dd <? days_in_month y m) eqn:Hlt.
  - rewrite IH by lia.
    replace (days_in_month y m - (dd + 1) + 1) with (days_in_month y m - dd)
      by lia.
    done.
  - replace (days_in_month y m - dd) with 0 by lia.
    change (seqZ (Z.succ dd) 0) with (@nil Z). cbn [map]. rewrite filter_nil.
    rewrite app_nil_r.
    destruct (m <? 12) eqn:H12; destruct fuel; cbn [business_days_loop month];
      try done.
    + destruct (m + 1 =? m) eqn:E; [lia | done].
    + destruct (1 =? m) eqn:E; [lia | done].
Qed.

Lemma length_filter_map {A B} (P : B -> Prop) `{forall x, Decision (P x)}
    (f : A -> B) (l : list A) :
  length (filter P (map f l)) = length (filter (fun x => P (f x)) l).
Proof.
  induction l as [| x l IH]; [done |].
  cbn [map]. rewrite !filter_cons. destruct (decide (P (f x))); simpl; lia.
Qed.

Lemma count_weekdays_mod c n : count_weekdays c n = count_weekdays (c mod 7) n.
Proof.
  unfold count_weekdays. f_equal. apply list_filter_iff. intros k.
  by rewrite Zplus_mod_idemp_l.
Qed.

Lemma count_weekdays_range c n :
  28 <= n <= 31 -> (20 <= count_weekdays c n <= 23)%nat.
Proof.
  intros Hn. rewrite count_weekdays_mod.
  pose proof (Z.mod_pos_bound c 7 ltac:(lia)) as Hc.
  assert (Hcases : c mod 7 = 0 \/ c mod 7 = 1 \/ c mod 7 = 2 \/ c mod 7 = 3
                   \/ c mod 7 = 4 \/ c mod 7 = 5 \/ c mod 7 = 6) by lia.
  assert (Hns : n = 28 \/ n = 29 \/ n = 30 \/ n = 31) by lia.
  destruct Hcases as [-> | [-> | [-> | [-> | [-> | [-> | ->]]]]]];
    destruct Hns as [-> | [-> | [-> | ->]]]; vm_compute; lia.
Qed.

Lemma business_days_in_month_filter y m :
  1 <= m <= 12 ->
  business_days_in_month y m
  = filter (fun d => weekday d < 5)
      (map (mkdate y m) (seqZ 1 (days_in_month y m))).
Proof.
  intros Hm. pose proof (days_in_month_range y m) as Hr.
  unfold business_days_in_month.
  rewrite business_days_loop_spec by lia.
  replace (days_in_month y m - 1 + 1) with (days_in_month y m) by lia. done.
Qed.

Lemma business_days_length y m :
  1 <= m <= 12 ->
  (20 <= length (business_days_in_month y m) <= 23)%nat.
Proof.
  intros Hm. pose proof (days_in_month_range y m) as Hr.
  rewrite (business_days_in_month_filter y m Hm).
  rewrite length_filter_map.
  assert (Hc : length (filter (fun k => weekday (mkdate y m k) < 5)
                         (seqZ 1 (days_in_month y m)))
               = count_weekdays
                   (days_before_year y + days_before_month y m + 6)
                   (days_in_month y m)).
  { unfold count_weekdays. f_equal. apply list_filter_iff. intros k.
    unfold weekday, toordinal. simpl.
    replace (days_before_year y + days_before_month y m + k + 6)
      with (days_before_year y + days_before_month y m + 6 + k) by lia.
    done. }
  rewrite Hc.
  apply (count_weekdays_range
           (days_before_year y + days_before_month y m + 6)
           (days_in_month y m) Hr).
Qed.



(** X12.  A month in the range of [date] has between 20 and 23 business
    days, so the day count that divides the monthly demand is never
    replaced by the guard [max(1, ...)]. *)
Theorem business_days_count y m :
  month_in_range y m ->
  (20 <= length (business_days_in_month y m) <= 23)%nat
  /\ Z.max 1 (Z.of_nat (length (business_days_in_month y m)))
     = Z.of_nat (length (business_days_in_month y m)).
Proof.
  intros (_ & Hm & _). pose proof (business_days_length y m Hm) as H.
  split; lia.
Qed.

Lemma business_days_count_witness :
  month_in_range 2021 2
  /\ (20 <= length (business_days_in_month 2021 2) <= 23)%nat.
Proof.
  assert (H : month_in_range 2021 2) by (unfold month_in_range; lia).
  split; [exact H |]. exact (proj1 (business_days_count 2021 2 H)).
Defined.

(** ** Aggregating the pool *)

Lemma string_compare_lt_trans a b c :
  String.compare a b = Lt -> String.compare b c = Lt -> String.compare a c = Lt.
Proof.
  intros H1 H2. apply String_as_OT.cmp_lt.
  apply String_as_OT.cmp_lt in H1, H2. eapply String_as_OT.lt_trans; eauto.
Qed.

Lemma string_compare_refl a : String.compare a a = Eq.
Proof. by apply String_as_OT.cmp_eq. Qed.

Lemma string_compare_gt a b : String.compare a b = Gt -> String.compare b a = Lt.
Proof. intros H. rewrite String.compare_antisym, H. done. Qed.

Lemma key_lt_irrefl a : ~ key_lt a a.
Proof.
  unfold key_lt, key_ltb. rewrite !string_compare_refl. done.
Qed.

Lemma key_lt_trans a b c : key_lt a b -> key_lt b c -> key_lt a c.
Proof.
  unfold key_lt, key_ltb. destruct a as [a1 a2], b as [b1 b2], c as [c1 c2].
  simpl.
  destruct (String.compare a1 b1) eqn:E1; try done;
    destruct (String.compare b1 c1) eqn:E2; try done;
    try apply String.compare_eq_iff in E1; try apply String.compare_eq_iff in E2;
    subst; rewrite ?E1, ?E2, ?string_compare_refl; try done.
  - destruct (String.compare a2 b2) eqn:E3; try done.
    destruct (String.compare b2 c2) eqn:E4; try done.
    by rewrite (string_compare_lt_trans _ _ _ E3 E4).
  - by rewrite (string_compare_lt_trans _ _ _ E1 E2).
Qed.

Lemma key_lt_total a b : ~ key_lt a b -> ~ key_lt b a -> a = b.
Proof.
  unfold key_lt, key_ltb. destruct a as [a1 a2], b as [b1 b2]. simpl.
  rewrite (String.compare_antisym a1 b1), (String.compare_antisym a2 b2).
  destruct (String.compare b1 a1) eqn:E1; simpl; try done.
  apply String.compare_eq_iff in E1 as ->.
  destruct (String.compare b2 a2) eqn:E2; simpl; try done.
  apply String.compare_eq_iff in E2 as ->. done.
Qed.

Lemma insert_key_elem x y l :
  StronglySorted key_lt l ->
  y ∈ insert_key x l <-> y = x \/ y ∈ l.
Proof.
  induction 1 as [| z l Hs IH Hall]; simpl.
  - rewrite elem_of_cons, elem_of_nil. tauto.
  - destruct (key_ltb x z) eqn:E1; [rewrite !elem_of_cons; tauto |].
    destruct (key_ltb z x) eqn:E2.
    + rewrite !elem_of_cons, IH. tauto.
    + assert (x = z) as -> by (apply key_lt_total; unfold key_lt; congruence).
      rewrite !elem_of_cons. tauto.
Qed.

Lemma insert_key_sorted x l :
  StronglySorted key_lt l -> StronglySorted key_lt (insert_key x l).
Proof.
  intros Hs. induction Hs as [| z l Hs IH Hall]; simpl.
  - repeat constructor.
  - destruct (key_ltb x z) eqn:E1.
    + constructor; [by constructor |].
      constructor; [done |].
      eapply Forall_impl; [exact Hall |]. intros w Hw.
      by apply (key_lt_trans _ z).
    + destruct (key_ltb z x) eqn:E2; [| by constructor].
      constructor; [done |].
      apply Forall_forall. intros w Hw.
      apply (insert_key_elem _ _ _ Hs) in Hw as [-> | Hw]; [done |].
      rewrite Forall_forall in Hall. by apply Hall.
Qed.

Lemma group_keys_spec (ks : list (string * string)) :
  StronglySorted key_lt (fold_right insert_key [] ks)
  /\ forall k, k ∈ fold_right insert_key [] ks <-> k ∈ ks.
Proof.
  induction ks as [| k0 ks [IHs IHe]]; simpl.
  - split; [constructor | done].
  - split; [by apply insert_key_sorted |].
    intros k. rewrite insert_key_elem by done.
    rewrite elem_of_cons, IHe. tauto.
Qed.

Lemma sorted_keys_NoDup l : StronglySorted key_lt l -> NoDup l.
Proof.
  induction 1 as [| z l Hs IH Hall]; constructor; [| done].
  intros Hin. rewrite Forall_forall in Hall.
  by apply (key_lt_irrefl z), Hall.
Qed.

Lemma fold_left_Qplus (l : list Q) (a : Q) :
  fold_left Qplus l a == a + qsum id l.
Proof.
  revert a. induction l as [| x l IH]; intros a; simpl.
  - unfold qsum. simpl. ring.
  - rewrite IH. unfold qsum, id. simpl. ring.
Qed.

Lemma qsum_ext {A} (f g : A -> Q) l :
  (forall x, x ∈ l -> f x == g x) -> qsum f l == qsum g l.
Proof.
  induction l as [| x l IH]; intros H; [reflexivity |].
  unfold qsum in *. simpl. rewrite (H x) by (by left).
  rewrite IH by (intros; apply H; by right). reflexivity.
Qed.

Lemma qsum_plus {A} (f g : A -> Q) l :
  qsum (fun x => f x + g x)%Q l == qsum f l + qsum g l.
Proof.
  induction l as [| x l IH]; unfold qsum in *; simpl; [ring |].
  rewrite IH. ring.
Qed.

Lemma qsum_zero {A} (l : list A) : qsum (fun _ => 0%Q) l == 0.
Proof.
  induction l as [| x l IH]; unfold qsum in *; simpl; [reflexivity |].
  rewrite IH. ring.
Qed.

Lemma qsum_indicator {A} `{EqDecision A} (k0 : A) (t : Q) l :
  NoDup l -> k0 ∈ l ->
  qsum (fun k => if decide (k = k0) then t else 0%Q) l == t.
Proof.
  induction 1 as [| k l Hk Hnd IH]; intros Hin; [by apply elem_of_nil in Hin |].
  unfold qsum in *. simpl. destruct (decide (k = k0)) as [-> | Hne].
  - fold (qsum (fun k => if decide (k = k0) then t else 0%Q) l).
    rewrite (qsum_ext _ (fun _ => 0%Q)); [rewrite qsum_zero; ring |].
    intros x Hx. destruct (decide (x = k0)) as [-> | ?]; [done | reflexivity].
  - apply elem_of_cons in Hin as [-> | Hin]; [done |].
    rewrite IH by done. ring.
Qed.

Lemma qsum_cons {A} (f : A -> Q) x l : qsum f (x :: l) = (f x + qsum f l)%Q.
Proof. reflexivity. Qed.

Lemma group_hours (k : string * string) (tasks : list PoolRow) :
  fold_left Qplus
    (omap (fun r => if same_key k.1 k.2 (pl_Product r) (pl_Subsystem r)
                    then pl_Time r else None) tasks) 0%Q
  == qsum (fun r => if decide ((pl_Product r, pl_Subsystem r) = k)
                    then default 0%Q (pl_Time r) else 0%Q) tasks.
Proof.
  rewrite fold_left_Qplus. destruct k as [p s]. cbn [fst snd].
  set (g := fun r : PoolRow =>
              if same_key p s (pl_Product r) (pl_Subsystem r)
              then pl_Time r else None).
  induction tasks as [| r tasks IH]; [unfold qsum; simpl; ring |].
  change (omap g (r :: tasks))
    with (match g r with Some y => y :: omap g tasks | None => omap g tasks end).
  rewrite qsum_cons.
  unfold g at 1, same_key.
  destruct (decide ((pl_Product r, pl_Subsystem r) = (p, s))) as [Heq | Hne].
  - injection Heq as -> ->. rewrite !bool_decide_eq_true_2 by done.
    cbn [andb].
    destruct (pl_Time r) as [t |]; cbn [default].
    + rewrite qsum_cons, <- IH. unfold id at 1 3. ring.
    + lra.
  - assert (bool_decide (p = pl_Product r) && bool_decide (s = pl_Subsystem r)
            = false) as ->.
    { apply andb_false_iff.
      destruct (decide (p = pl_Product r)) as [-> | ?];
        [| left; by apply bool_decide_eq_false_2].
      right. apply bool_decide_eq_false_2. congruence. }
    lra.
Qed.

Lemma aggregate_hours (ks : list (string * string)) (tasks : list PoolRow) :
  NoDup ks ->
  (forall r, r ∈ tasks -> (pl_Product r, pl_Subsystem r) ∈ ks) ->
  qsum (fun k => qsum (fun r => if decide ((pl_Product r, pl_Subsystem r) = k)
                                then default 0%Q (pl_Time r) else 0%Q) tasks) ks
  == pool_hours tasks.
Proof.
  intros Hnd. induction tasks as [| r tasks IH]; intros Hin.
  - unfold pool_hours. simpl. apply qsum_zero.
  - unfold pool_hours in *.
    change (qsum (fun r0 => default 0%Q (pl_Time r0)) (r :: tasks))
      with (default 0%Q (pl_Time r)
            + qsum (fun r0 => default 0%Q (pl_Time r0)) tasks)%Q.
    rewrite <- IH by (intros; apply Hin; by right).
    rewrite <- (qsum_indicator (pl_Product r, pl_Subsystem r)
                  (default 0%Q (pl_Time r)) ks Hnd (Hin r ltac:(by left))) at 1.
    rewrite <- qsum_plus. apply qsum_ext. intros k _.
    rewrite qsum_cons.
    destruct (decide ((pl_Product r, pl_Subsystem r) = k)) as [<- | Hne].
    + rewrite decide_True by done. reflexivity.
    + rewrite decide_False by congruence. reflexivity.
Qed.

(** X13.  [_aggregate_remaining] returns one row per (Product, Subsystem)
    of the pool, each key once, every row with a RemainingTime that is
    present.  When every Time of the pool is a whole number of quarter
    hours, not negative, and the pool holds less than 2^50 hours, the rows
    together hold exactly the hours of the pool: all sums of such values
    are binary64 numbers, so the sums of the source are exact. *)
Theorem aggregate_remaining_spec (tasks : list PoolRow) :
  let agg := _aggregate_remaining tasks in
  NoDup (map (fun r => (Product r, Subsystem r)) agg)
  /\ (forall p s, (exists r, r ∈ agg /\ Product r = p /\ Subsystem r = s)
                  <-> exists row, row ∈ tasks /\ pl_Product row = p
                        /\ pl_Subsystem row = s)
  /\ (forall r, r ∈ agg -> is_Some (RemainingTime r))
  /\ ((forall row h, row ∈ tasks -> pl_Time row = Some h ->
         exists n, 0 <= n /\ h == inject_Z n / 4) ->
      (pool_hours tasks < inject_Z (2 ^ 50))%Q ->
      carried_total agg == pool_hours tasks).
Proof.
  intros agg. unfold agg, _aggregate_remaining.
  set (ks := fold_right insert_key []
               (map (fun r => (pl_Product r, pl_Subsystem r)) tasks)).
  destruct (group_keys_spec
              (map (fun r => (pl_Product r, pl_Subsystem r)) tasks))
    as [Hsorted Helem].
  fold ks in Hsorted, Helem.
  pose proof (sorted_keys_NoDup _ Hsorted) as Hnd.
  split; [| split; [| split]].
  - rewrite map_map.
    rewrite (map_ext _ id); [by rewrite map_id |]. by intros [p s].
  - intros p s. split.
    + intros (r & Hr & <- & <-).
      apply list_elem_of_fmap in Hr as ([p s] & -> & Hk). simpl.
      apply Helem, list_elem_of_fmap in Hk as (row & [= -> ->] & Hrow). eauto.
    + intros (row & Hrow & <- & <-).
      eexists. split; [apply list_elem_of_fmap;
                       exists (pl_Product row, pl_Subsystem row);
                       split; [reflexivity |] |].
      * apply Helem, list_elem_of_fmap. eauto.
      * done.
  - intros r Hr. apply list_elem_of_fmap in Hr as ([p s] & -> & _). simpl. eauto.
  - intros _ _. rewrite <- (aggregate_hours ks tasks Hnd).
    + clear. induction ks as [| [p s] ks IH]; [reflexivity |].
      unfold carried_total, qsum in *. simpl.
      rewrite IH. rewrite (group_hours (p, s) tasks). reflexivity.
    + intros r Hr. apply Helem, list_elem_of_fmap. eauto.
Qed.

(** ** The week of a proposal *)

Lemma clash_free_app l1 l2 :
  clash_free l1 -> clash_free l2 ->
  (forall a b, a ∈ l1 -> b ∈ l2 -> no_overlap a b) ->
  clash_free (l1 ++ l2).
Proof.
  intros H1 H2 Hx i j a b Hij Ha Hb Hsame.
  apply lookup_app_Some in Hb as [Hb | [Hlen Hb]].
  - pose proof (lookup_lt_Some _ _ _ Hb).
    rewrite lookup_app_l in Ha by lia. by apply (H1 i j).
  - apply lookup_app_Some in Ha as [Ha | [Hlen' Ha]].
    + apply Hx; eapply list_elem_of_lookup_2; eauto.
    + apply (H2 (i - length l1)%nat (j - length l1)%nat); try done. lia.
Qed.

Lemma day_clash_free d tasks trainings stations available :
  clash_free (schedule_day_with_remaining d tasks trainings stations available).1.
Proof.
  destruct (Z_lt_le_dec (weekday d) 5) as [Hwd | Hwd].
  - destruct (schedule_day_weekday d tasks trainings stations available Hwd)
      as (st & rows & _ & Hres & I & _).
    rewrite Hres. simpl. intros i j a b. apply (inv_clash _ _ _ _ _ I).
  - rewrite schedule_day_weekend by done. intros i j a b _ Ha. done.
Qed.

Lemma day_in_day d tasks trainings stations available a :
  a ∈ (schedule_day_with_remaining d tasks trainings stations available).1 ->
  in_day d available a.
Proof.
  intros Ha.
  destruct (Z_lt_le_dec (weekday d) 5) as [Hwd | Hwd].
  - destruct (schedule_day_weekday d tasks trainings stations available Hwd)
      as (st & rows & _ & Hres & I & Hbase).
    rewrite Hres in Ha. simpl in Ha.
    pose proof (inv_asg _ _ _ _ _ I) as Hall.
    rewrite Forall_forall in Hall. specialize (Hall _ Ha).
    destruct (ok_start _ _ _ _ _ Hall) as (k & Hk & Hs).
    destruct (ok_len _ _ _ _ _ Hall) as (n & Hn & He).
    pose proof (ok_end _ _ _ _ _ Hall) as Hend.
    pose proof (ok_available _ _ _ _ _ Hall) as Hav.
    pose proof (ok_hours _ _ _ _ _ Hall) as Hh.
    unfold in_day, TIME_STEP_MIN in *.
    split; [lia |]. split; [lia |]. split; [lia |]. split; [done |].
    split; [exists n; lia | done].
  - rewrite schedule_day_weekend in Ha by done. by apply elem_of_nil in Ha.
Qed.

Lemma base_minutes_of_le wd : base_minutes_of wd <= 480.
Proof.
  unfold base_minutes_of. destruct (wd <? 4); [lia |].
  destruct (wd =? 4); lia.
Qed.

Section Week.

Variable data : tables.
Variable monday : date.
Variable avail : gmap date (gset string).

Local Abbreviation day_segment := (day_segment monday avail).

Lemma week_step_spec acc offset :
  exists seg, (week_step data monday avail acc offset).1 = acc.1 ++ seg
              /\ day_segment offset seg.
Proof.
  destruct acc as [all rem]. unfold week_step.
  destruct (_ || _).
  - exists []. simpl. rewrite app_nil_r. split; [done |].
    split; [by intros i j a b _ Ha | constructor].
  - set (tasks' := merge_left _ _ rem (times data)).
    pose proof (day_clash_free (add_days monday offset) tasks' (training data)
                  (stations data)
                  (default ∅ (avail !! add_days monday offset))) as Hc.
    pose proof (day_in_day (add_days monday offset) tasks' (training data)
                  (stations data)
                  (default ∅ (avail !! add_days monday offset))) as Hd.
    destruct (schedule_day_with_remaining _ _ _ _ _) as [daily rem'].
    simpl in *. exists daily. split; [done |]. split; [done |].
    by apply Forall_forall.
Qed.

Lemma week_fold_spec offsets acc :
  exists segs,
    (fold_left (week_step data monday avail) offsets acc).1
    = acc.1 ++ concat segs
    /\ Forall2 day_segment offsets segs.
Proof.
  revert acc. induction offsets as [| off offsets IH]; intros acc; simpl.
  - exists []. simpl. rewrite app_nil_r. split; [done | constructor].
  - destruct (week_step_spec acc off) as (seg & Hseg & Hday).
    destruct (IH (week_step data monday avail acc off)) as (segs & Hsegs & Hall).
    exists (seg :: segs). simpl. rewrite Hsegs, Hseg, <- app_assoc.
    split; [done | by constructor].
Qed.

Hypothesis monday_valid : valid_date monday.

Lemma day_start_offset offset :
  dt_combine (add_days monday offset) START_TIME
  = dt_combine monday START_TIME + offset * 1440.
Proof.
  unfold dt_combine. destruct (add_days_ordinal monday offset monday_valid) as [-> _].
  lia.
Qed.

Lemma week_segments_clash_free offsets segs :
  StronglySorted Z.lt offsets ->
  Forall2 day_segment offsets segs ->
  clash_free (concat segs)
  /\ forall a, a ∈ concat segs ->
       exists off, off ∈ offsets
         /\ in_day (add_days monday off)
              (default ∅ (avail !! add_days monday off)) a.
Proof.
  intros Hsorted Hall. revert Hsorted.
  induction Hall as [| off seg offsets segs [Hc Hd] Hall IH]; intros Hsorted.
  - split; [by intros i j a b _ Ha |]. intros a Ha. by apply elem_of_nil in Ha.
  - apply StronglySorted_inv in Hsorted as [Hs Hlt].
    destruct (IH Hs) as [IHc IHd]. simpl. split.
    + apply clash_free_app; try done.
      intros a b Ha Hb. rewrite Forall_forall in Hd. rewrite Forall_forall in Hlt.
      destruct (Hd _ Ha) as (_ & _ & Hea & _).
      destruct (IHd _ Hb) as (off' & Hoff' & (Hsb & _)).
      specialize (Hlt _ Hoff').
      pose proof (base_minutes_of_le (weekday (add_days monday off))).
      rewrite day_start_offset in Hea, Hsb. left. lia.
    + intros a Ha. apply elem_of_app in Ha as [Ha | Ha].
      * exists off. split; [by left |]. rewrite Forall_forall in Hd. by apply Hd.
      * destruct (IHd _ Ha) as (off' & Hoff' & Hin).
        exists off'. split; [by right | done].
Qed.

Lemma week_offsets_sorted : StronglySorted Z.lt [0; 1; 2; 3; 4].
Proof. repeat constructor; lia. Qed.

Lemma week_assignments_spec remaining :
  let all := (fold_left (week_step data monday avail) [0; 1; 2; 3; 4]
                ([], remaining)).1 in
  clash_free all
  /\ forall a, a ∈ all ->
       exists k, 0 <= k <= 4
         /\ in_day (add_days monday k) (default ∅ (avail !! add_days monday k)) a.
Proof.
  intros all. unfold all.
  destruct (week_fold_spec [0; 1; 2; 3; 4] ([], remaining)) as (segs & -> & Hall).
  simpl.
  destruct (week_segments_clash_free _ _ week_offsets_sorted Hall) as [Hc Hd].
  split; [done |]. intros a Ha.
  destruct (Hd _ Ha) as (off & Hoff & Hin). exists off. split; [| done].
  repeat (apply elem_of_cons in Hoff as [-> | Hoff]; [lia |]).
  by apply elem_of_nil in Hoff.
Qed.

End Week.

(** ** The proposals of a week *)

Lemma proposals_from_inv data monday avail draw i k files :
  proposals_from data monday avail draw i k = Returned files ->
  map fst files = map (fun j => (monday, j)) (seqZ i (Z.of_nat k))
  /\ Forall (fun f => proposal data monday avail f.1.2 (draw f.1.2)
                      = Returned f.2) files.
Proof.
  revert i files. induction k as [| k IH]; intros i files.
  - simpl. intros [= <-]. split; [done | constructor].
  - cbn [proposals_from].
    destruct (proposal data monday avail i (draw i)) as [rows | e] eqn:Hp;
      [| done].
    destruct (proposals_from data monday avail draw (i + 1) k) as [fs | e] eqn:Hf;
      [| done].
    intros [= <-]. destruct (IH _ _ Hf) as [Hn Hall].
    rewrite (seqZ_cons i (Z.of_nat (S k))) by lia. simpl.
    replace (Z.pred (Z.of_nat (S k))) with (Z.of_nat k) by lia.
    rewrite Hn. split; [done |]. constructor; [done | done].
Qed.

Lemma proposal_rows data monday avail i mult rows :
  proposal data monday avail i mult = Returned rows ->
  rows = []
  \/ exists remaining,
       rows = map (out_row i)
                (fold_left (week_step data monday avail) [0; 1; 2; 3; 4]
                   ([], remaining)).1.
Proof.
  unfold proposal.
  destruct (make_weekly_task_pool _ _ _ _) as [[| r pool] | e]; try done.
  - intros [= <-]. by left.
  - destruct (fold_left _ _ _) as [all rem] eqn:E.
    intros [= <-]. right. exists (_aggregate_remaining (r :: pool)).
    by rewrite E.
Qed.

(** X14.  When [generate_weekly_proposals] returns, it has written one
    record set per requested proposal, numbered 1, 2, ..., n in this order,
    each identified by the Monday of the week of the target date. *)
Theorem proposals_numbered data target_date avail n draw files :
  generate_weekly_proposals data target_date avail n draw = Returned files ->
  map fst files = map (fun i => (week_monday target_date, i)) (seqZ 1 n)
  /\ length files = Z.to_nat n.
Proof.
  unfold generate_weekly_proposals. intros H.
  apply proposals_from_inv in H as [Hn _].
  assert (Hs : seqZ 1 (Z.of_nat (Z.to_nat n)) = seqZ 1 n)
    by (unfold seqZ; by rewrite Nat2Z.id).
  rewrite Hs in Hn. split; [done |].
  rewrite <- (length_map fst), Hn, length_map, length_seqZ. done.
Qed.

Lemma proposals_numbered_witness :
  generate_weekly_proposals demo_other_month (mkdate 2021 2 3) demo_avail 2
    (fun _ => 1%Q)
  = Returned [(demo_monday, 1, []); (demo_monday, 2, [])]
  /\ map fst [(demo_monday, 1, @nil OutRow); (demo_monday, 2, [])]
     = map (fun i => (week_monday (mkdate 2021 2 3), i)) (seqZ 1 2)
  /\ length [(demo_monday, 1, @nil OutRow); (demo_monday, 2, [])] = Z.to_nat 2.
Proof.
  assert (H : generate_weekly_proposals demo_other_month (mkdate 2021 2 3)
                demo_avail 2 (fun _ => 1%Q)
              = Returned [(demo_monday, 1, []); (demo_monday, 2, [])])
    by (vm_compute; reflexivity).
  split; [exact H |].
  exact (proposals_numbered demo_other_month (mkdate 2021 2 3) demo_avail 2
           (fun _ => 1%Q) _ H).
Defined.

Lemma generated_file data target_date avail n draw files monday i rows :
  generate_weekly_proposals data target_date avail n draw = Returned files ->
  (monday, i, rows) ∈ files ->
  monday = week_monday target_date /\ 1 <= i <= n
  /\ (rows = []
      \/ exists remaining,
           rows = map (out_row i)
                    (fold_left (week_step data monday avail) [0; 1; 2; 3; 4]
                       ([], remaining)).1).
Proof.
  unfold generate_weekly_proposals. intros H Hin.
  apply proposals_from_inv in H as [Hn Hall].
  assert (Hfst : (monday, i) ∈ map fst files).
  { apply list_elem_of_fmap. exists (monday, i, rows). done. }
  rewrite Hn in Hfst. apply list_elem_of_fmap in Hfst as (j & [= -> ->] & Hj).
  apply elem_of_seqZ in Hj.
  rewrite Forall_forall in Hall. specialize (Hall _ Hin). simpl in Hall.
  apply proposal_rows in Hall. split; [done |]. split; [lia | done].
Qed.

Lemma generated_record data target_date avail n draw files monday i rows r :
  valid_date target_date ->
  generate_weekly_proposals data target_date avail n draw = Returned files ->
  (monday, i, rows) ∈ files -> r ∈ rows ->
  exists a k, r = out_row i a /\ 0 <= k <= 4
    /\ weekday (add_days monday k) = k
    /\ toordinal (add_days monday k) = toordinal monday + k
    /\ in_day (add_days monday k) (default ∅ (avail !! add_days monday k)) a.
Proof.
  intros Hvalid Hgen Hfile Hr.
  destruct (generated_file _ _ _ _ _ _ _ _ _ Hgen Hfile)
    as (-> & Hi & [-> | (remaining & ->)]); [by apply elem_of_nil in Hr |].
  destruct (week_monday_ordinal target_date Hvalid) as (Hmv & Hw0 & _).
  apply list_elem_of_fmap in Hr as (a & -> & Ha).
  destruct (week_assignments_spec data (week_monday target_date) avail Hmv
              remaining) as [_ Hd].
  destruct (Hd _ Ha) as (k & Hk & Hin).
  exists a, k.
  destruct (add_days_ordinal (week_monday target_date) k Hmv) as [Hord _].
  split; [done |]. split; [lia |]. split; [| split; [lia | done]].
  revert Hw0 Hord Hk. clear. unfold weekday. intros Hw0 -> Hk.
  Z.to_euclidean_division_equations; lia.
Qed.

(** X16.  Every record of a written proposal carries the number of its
    proposal and belongs to one of the five days Monday to Friday of the
    target week: its Date is that day, its interval lies between 08:00 of
    that day and 08:00 plus the capacity of that day, and its operator is
    in the available set given for that day. *)
Theorem proposal_records_in_week data target_date avail n draw files
    monday i rows r :
  valid_date target_date ->
  generate_weekly_proposals data target_date avail n draw = Returned files ->
  (monday, i, rows) ∈ files -> r ∈ rows ->
  o_ProposalId r = i
  /\ exists k, 0 <= k <= 4
       /\ weekday (add_days monday k) = k
       /\ o_Date r = toordinal (add_days monday k)
       /\ dt_combine (add_days monday k) START_TIME <= o_Start r < o_End r
       /\ o_End r <= dt_combine (add_days monday k) START_TIME
                     + base_minutes_of k
       /\ o_Operator r ∈ default ∅ (avail !! add_days monday k).
Proof.
  intros Hvalid Hgen Hfile Hr.
  destruct (generated_record _ _ _ _ _ _ _ _ _ _ Hvalid Hgen Hfile Hr)
    as (a & k & -> & Hk & Hwk & Hord & (Hs & Hlt & He & Hop & _)).
  split; [done |]. exists k. rewrite Hwk in He.
  pose proof (base_minutes_of_le k).
  simpl. repeat split; try done; try lia.
  unfold dt_combine, START_TIME in Hs, He.
  Z.to_euclidean_division_equations; lia.
Qed.

(** X17.  Within a written proposal no operator and no workcell is booked
    twice over the whole week: two records at different positions that
    share the operator or the workcell do not overlap. *)
Theorem proposal_no_double_booking data target_date avail n draw files
    monday i rows (j1 j2 : nat) r1 r2 :
  valid_date target_date ->
  generate_weekly_proposals data target_date avail n draw = Returned files ->
  (monday, i, rows) ∈ files ->
  j1 <> j2 -> rows !! j1 = Some r1 -> rows !! j2 = Some r2 ->
  o_Operator r1 = o_Operator r2 \/ o_Workcell r1 = o_Workcell r2 ->
  o_End r1 <= o_Start r2 \/ o_End r2 <= o_Start r1.
Proof.
  intros Hvalid Hgen Hfile Hne H1 H2 Hsame.
  destruct (generated_file _ _ _ _ _ _ _ _ _ Hgen Hfile)
    as (-> & Hi & [-> | (remaining & ->)]); [done |].
  destruct (week_monday_ordinal target_date Hvalid) as (Hmv & _).
  destruct (week_assignments_spec data (week_monday target_date) avail Hmv
              remaining) as [Hc _].
  rewrite list_lookup_fmap in H1, H2.
  destruct (_ !! j1) as [a |] eqn:Ha; [| done].
  destruct (_ !! j2) as [b |] eqn:Hb; [| done].
  simpl in H1, H2. injection H1 as <-. injection H2 as <-.
  cbn [out_row o_Operator o_Workcell o_Start o_End] in Hsame |- *.
  destruct (Nat.lt_total j1 j2) as [Hlt | [-> | Hlt]]; [| done |].
  - apply (Hc j1 j2 a b Hlt Ha Hb Hsame).
  - assert (no_overlap b a) as [Hx | Hx]
      by (apply (Hc j2 j1 b a Hlt Hb Ha); destruct Hsame; [left | right]; done).
    + by right.
    + by left.
Qed.

Lemma demo_week_run :
  generate_weekly_proposals demo_week_tables (mkdate 2021 2 3) demo_avail 1
    (fun _ => 1%Q)
  = Returned [(demo_monday, 1, [demo_r1; demo_r2])].
Proof. vm_compute. reflexivity. Qed.

Lemma demo_date_valid : valid_date (mkdate 2021 2 3).
Proof. vm_compute. repeat split; discriminate. Qed.

Lemma proposal_records_in_week_witness :
  valid_date (mkdate 2021 2 3)
  /\ (demo_monday, 1, [demo_r1; demo_r2])
     ∈ [(demo_monday, 1, [demo_r1; demo_r2])]
  /\ demo_r2 ∈ [demo_r1; demo_r2]
  /\ o_ProposalId demo_r2 = 1
  /\ exists k, 0 <= k <= 4
       /\ weekday (add_days demo_monday k) = k
       /\ o_Date demo_r2 = toordinal (add_days demo_monday k)
       /\ dt_combine (add_days demo_monday k) START_TIME <= o_Start demo_r2
          < o_End demo_r2
       /\ o_End demo_r2 <= dt_combine (add_days demo_monday k) START_TIME
                          + base_minutes_of k
       /\ o_Operator demo_r2 ∈ default ∅ (demo_avail !! add_days demo_monday k).
Proof.
  assert (H1 : (demo_monday, 1, [demo_r1; demo_r2])
               ∈ [(demo_monday, 1, [demo_r1; demo_r2])]) by left.
  assert (H2 : demo_r2 ∈ [demo_r1; demo_r2]) by (right; left).
  split; [exact demo_date_valid |]. split; [exact H1 |]. split; [exact H2 |].
  exact (proposal_records_in_week demo_week_tables (mkdate 2021 2 3) demo_avail
           1 (fun _ => 1%Q) _ demo_monday 1 _ demo_r2 demo_date_valid
           demo_week_run H1 H2).
Defined.

Lemma proposal_no_double_booking_witness :
  valid_date (mkdate 2021 2 3)
  /\ (0 <> 1)%nat
  /\ [demo_r1; demo_r2] !! 0%nat = Some demo_r1
  /\ [demo_r1; demo_r2] !! 1%nat = Some demo_r2
  /\ (o_Operator demo_r1 = o_Operator demo_r2
      \/ o_Workcell demo_r1 = o_Workcell demo_r2)
  /\ (o_End demo_r1 <= o_Start demo_r2 \/ o_End demo_r2 <= o_Start demo_r1).
Proof.
  assert (H1 : (demo_monday, 1, [demo_r1; demo_r2])
               ∈ [(demo_monday, 1, [demo_r1; demo_r2])]) by left.
  assert (Hne : (0 <> 1)%nat) by lia.
  assert (Hs : o_Operator demo_r1 = o_Operator demo_r2
               \/ o_Workcell demo_r1 = o_Workcell demo_r2) by (left; reflexivity).
  split; [exact demo_date_valid |]. split; [exact Hne |].
  split; [reflexivity |]. split; [reflexivity |]. split; [exact Hs |].
  exact (proposal_no_double_booking demo_week_tables (mkdate 2021 2 3)
           demo_avail 1 (fun _ => 1%Q) _ demo_monday 1 _ 0 1 demo_r1 demo_r2
           demo_date_valid demo_week_run H1 Hne eq_refl eq_refl Hs).
Defined.

(** ** Operators work without gaps *)

Lemma place_next_slot_earliest day_start max_minutes h step occ s e :
  0 < step ->
  place_next_slot day_start max_minutes h step occ = Some (s, e) ->
  exists k : nat, s = day_start + Z.of_nat k * step
    /\ forall j : nat, (j < k)%nat ->
         can_place (day_start + Z.of_nat j * step)
           (day_start + Z.of_nat j * step + (e - s)) occ = false.
Proof.
  intros Hstep E.
  pose proof (place_next_slot_some _ _ _ _ _ _ _ E) as (_ & _ & He & _).
  unfold place_next_slot in E.
  destruct (_ =? 0); [done |].
  destruct (slot_loop _ _ _ _ _ _) as [[[s' e'] |] |] eqn:Hloop; try done.
  injection E as -> ->.
  apply slot_loop_earliest in Hloop as (k & Hk & Hearly); [| lia].
  exists k. split; [done |].
  replace (e - s) with (round_up_to_step (int_of_Q (h * 60)) step) by lia. done.
Qed.

Lemma try_operator_earliest day_start base prod sub wc remain_h op sched st a :
  assignments (try_operator day_start base prod sub wc remain_h op sched st).2
  = assignments st ++ [a] ->
  exists k : nat, start a = day_start + Z.of_nat k * TIME_STEP_MIN
    /\ forall j : nat, (j < k)%nat ->
         can_place (day_start + Z.of_nat j * TIME_STEP_MIN)
           (day_start + Z.of_nat j * TIME_STEP_MIN + (end_ a - start a))
           (default [] (occ_by_op st !! op)) = false.
Proof.
  assert (Hno : assignments st <> assignments st ++ [a]).
  { intros H. apply (f_equal length) in H. rewrite length_app in H.
    cbn [length] in H. lia. }
  unfold try_operator.
  destruct (_ <? TIME_STEP_MIN); [done |].
  destruct (place_next_slot _ _ _ _ _) as [[s e] |] eqn:Hslot; [| done].
  destruct (can_place s e _); [| done].
  simpl. intros H. apply app_inv_head in H. injection H as <-. simpl.
  assert (Hstep : 0 < TIME_STEP_MIN) by (unfold TIME_STEP_MIN; lia).
  apply (place_next_slot_earliest _ _ _ _ _ _ _ Hstep Hslot).
Qed.

Lemma op_minutes_of_operator op l :
  op_minutes op l = op_minutes op (of_operator op l).
Proof.
  unfold of_operator. induction l as [| a l IH]; [done |].
  rewrite filter_cons. simpl. destruct (decide (operator a = op)) as [Heq | Hne].
  - simpl. rewrite bool_decide_eq_true_2 by done. lia.
  - rewrite bool_decide_eq_false_2 by done. lia.
Qed.

Lemma back_to_back_snoc t l a :
  (forall b, b ∈ l -> operator b = operator a) ->
  back_to_back t l -> start a = t + op_minutes (operator a) l ->
  back_to_back t (l ++ [a]).
Proof.
  revert t. induction l as [| b l IH]; intros t Hop Hb Hs; simpl in *.
  - split; [lia | done].
  - destruct Hb as [Hbs Hb]. split; [done |]. apply IH; [| done |].
    + intros c Hc. apply Hop. by right.
    + rewrite bool_decide_eq_true_2 in Hs by (apply Hop; by left). lia.
Qed.

(** Intervals that follow one another from [t] cover [t .. t + minutes)
    and end by its end. *)
Lemma back_to_back_cover t l op :
  Forall (fun a => operator a = op /\ start a < end_ a) l ->
  back_to_back t l ->
  (forall a, a ∈ l -> end_ a <= t + op_minutes op l)
  /\ (forall x, t <= x < t + op_minutes op l ->
        exists a, a ∈ l /\ start a <= x < end_ a).
Proof.
  intros Hall. revert t. induction Hall as [| a l [Hop Hpos] Hall IH];
    intros t Hb; simpl in *.
  - split; [intros a Ha; by apply elem_of_nil in Ha | intros x Hx; lia].
  - destruct Hb as [Hs Hb]. destruct (IH _ Hb) as [IH1 IH2].
    rewrite bool_decide_eq_true_2 by done.
    assert (0 <= op_minutes op l).
    { clear -Hall. induction Hall as [| b l [Hop Hpos] _ IH]; simpl; [lia |].
      rewrite bool_decide_eq_true_2 by done. lia. }
    split.
    + intros b Hb'. apply elem_of_cons in Hb' as [-> | Hb']; [lia |].
      specialize (IH1 _ Hb'). lia.
    + intros x Hx. destruct (Z_lt_le_dec x (end_ a)) as [Hlt | Hge].
      * exists a. split; [by left | lia].
      * destruct (IH2 x ltac:(lia)) as (b & Hb' & Hx'). exists b.
        split; [by right | done].
Qed.

Section Chain.

Variable day_start : Z.
Variable base_minutes : Z.
Variable trained : list TrainingRow.
Variable available_operators : gset string.
Hypothesis base_on_grid : (TIME_STEP_MIN | base_minutes).

Local Abbreviation day_inv :=
  (day_inv day_start base_minutes trained available_operators).
Local Abbreviation eligible := (eligible trained available_operators).

Local Abbreviation day_chain := (day_chain day_start).

Lemma of_operator_ok st op :
  day_inv st ->
  Forall (fun a => operator a = op /\ start a < end_ a)
    (of_operator op (assignments st)).
Proof.
  intros I. apply Forall_forall. intros a Ha.
  apply list_elem_of_filter in Ha as [Hop Ha]. split; [done |].
  pose proof (inv_asg _ _ _ _ _ I) as Hall. rewrite Forall_forall in Hall.
  destruct (ok_len _ _ _ _ _ (Hall _ Ha)) as (n & Hn & ->).
  unfold TIME_STEP_MIN. lia.
Qed.

Lemma committed_chain remain_h sched st st' a sched' :
  committed day_start base_minutes remain_h sched st st' a sched' ->
  (exists k : nat, start a = day_start + Z.of_nat k * TIME_STEP_MIN
     /\ forall j : nat, (j < k)%nat ->
          can_place (day_start + Z.of_nat j * TIME_STEP_MIN)
            (day_start + Z.of_nat j * TIME_STEP_MIN + (end_ a - start a))
            (default [] (occ_by_op st !! operator a)) = false) ->
  day_inv st -> day_chain st -> day_chain st'.
Proof.
  intros C (k & Hk & Hearly) I Hch op. unfold of_operator.
  rewrite (cm_asg _ _ _ _ _ _ _ _ C), filter_app, filter_cons, filter_nil.
  destruct (decide (operator a = op)) as [<- | Hne];
    [| rewrite app_nil_r; apply Hch].
  apply back_to_back_snoc; [| apply Hch |].
  { intros b Hb. by apply list_elem_of_filter in Hb as [? _]. }
  fold (of_operator (operator a) (assignments st)).
  rewrite <- op_minutes_of_operator.
  set (u := op_minutes (operator a) (assignments st)).
  destruct (back_to_back_cover day_start _ (operator a)
              (of_operator_ok st (operator a) I) (Hch (operator a)))
    as [Hend Hcover].
  rewrite <- op_minutes_of_operator in Hend, Hcover. fold u in Hend, Hcover.
  destruct (cm_len _ _ _ _ _ _ _ _ C) as (n & Hn & Hlen).
  pose proof (cm_free_op _ _ _ _ _ _ _ _ C) as Hfree.
  rewrite can_place_spec in Hfree.
  assert (Hocc : forall b, b ∈ of_operator (operator a) (assignments st) ->
                   (start b, end_ b) ∈ default [] (occ_by_op st !! operator a)).
  { intros b Hb. apply list_elem_of_filter in Hb as [Hop Hb].
    apply (inv_occ_op _ _ _ _ _ I). eauto. }
  (* not before the end of the occupied block *)
  assert (Hge : day_start + u <= start a).
  { destruct (Z_lt_le_dec (start a) (day_start + u)) as [Hlt | Hge]; [| done].
    destruct (Hcover (start a) ltac:(unfold TIME_STEP_MIN in *; lia))
      as (b & Hb & Hx).
    specialize (Hfree _ (Hocc _ Hb)). simpl in Hfree.
    unfold TIME_STEP_MIN in *. lia. }
  (* not after it: the block end is a free grid position *)
  assert (Hgrid : (TIME_STEP_MIN | u)) by (apply op_minutes_on_grid with
    (day_start := day_start) (base_minutes := base_minutes) (trained := trained)
    (available_operators := available_operators); apply I).
  destruct Hgrid as [q Hq].
  assert (Hu0 : 0 <= u).
  { pose proof (of_operator_ok st (operator a) I) as Hall.
    unfold u. rewrite op_minutes_of_operator.
    clear -Hall. induction Hall as [| b l [Hop Hpos] _ IH]; simpl; [lia |].
    rewrite bool_decide_eq_true_2 by done. lia. }
  destruct (Z_lt_le_dec (day_start + u) (start a)) as [Hlt | Hle]; [| lia].
  exfalso.
  assert (Hj : (Z.to_nat q < k)%nat) by (unfold TIME_STEP_MIN in *; lia).
  specialize (Hearly _ Hj).
  replace (day_start + Z.of_nat (Z.to_nat q) * TIME_STEP_MIN)
    with (day_start + u) in Hearly by (unfold TIME_STEP_MIN in *; lia).
  assert (can_place (day_start + u) (day_start + u + (end_ a - start a))
            (default [] (occ_by_op st !! operator a)) = true) as Htrue;
    [| congruence].
  apply can_place_spec. intros iv Hiv.
  apply (inv_occ_op _ _ _ _ _ I) in Hiv as (b & Hb & Hop & <-). simpl.
  right. apply Hend. by apply list_elem_of_filter.
Qed.

Lemma try_operator_chain prod sub wc remain_h op sched st :
  (sched < remain_h)%Q -> day_inv st -> day_chain st ->
  day_chain (try_operator day_start base_minutes prod sub wc remain_h op sched st).2.
Proof.
  intros Hlt I Hch.
  destruct (try_operator_cases day_start base_minutes prod sub wc remain_h op
              sched st Hlt) as [[_ (Ha & _)] | (a & <- & _ & _ & _ & C)].
  - intros op'. rewrite Ha. apply Hch.
  - eapply committed_chain; eauto.
    apply (try_operator_earliest _ base_minutes prod sub wc remain_h _ sched).
    apply (cm_asg _ _ _ _ _ _ _ _ C).
Qed.

Lemma assign_ops_chain prod sub wc remain_h ops sched st :
  Forall (eligible prod sub) ops -> day_inv st -> day_chain st ->
  day_chain (assign_ops day_start base_minutes prod sub wc remain_h ops sched st).2.
Proof.
  intros Hops. revert sched st.
  induction Hops as [| op ops Hop _ IH]; intros sched st I Hch; simpl; [done |].
  destruct (Qle_bool remain_h sched) eqn:Hbrk; [done |].
  apply Qle_bool_false in Hbrk.
  pose proof (try_operator_inv day_start base_minutes trained available_operators
                base_on_grid prod sub wc remain_h op sched st Hbrk Hop I) as I'.
  pose proof (try_operator_chain prod sub wc remain_h op sched st Hbrk I Hch) as C'.
  destruct (try_operator _ _ _ _ _ _ _ _ _) as [h st']. by apply IH.
Qed.

Lemma schedule_task_chain st task :
  day_inv st -> day_chain st ->
  day_chain (schedule_task day_start base_minutes trained available_operators
               st task).1.
Proof.
  intros I Hch. unfold schedule_task.
  destruct (_ || _); [done |].
  pose proof (assign_ops_chain (dt_Product task) (dt_Subsystem task)
                (dt_Workcell task) (dt_RemainingTime task)
                (sorted_ops st (cand_ops trained available_operators st
                                  (dt_Product task) (dt_Subsystem task)))
                0 st) as H.
  destruct (assign_ops _ _ _ _ _ _ _ _ _) as [h st']. simpl in *.
  apply H; [| done | done]. apply sorted_ops_eligible, cand_ops_eligible.
Qed.

Lemma schedule_rows_chain tasks st rows :
  day_inv st -> day_chain st ->
  day_chain (schedule_rows day_start base_minutes trained available_operators
               tasks st rows).1.
Proof.
  revert st rows. induction tasks as [| task tasks IH]; intros st rows I Hch;
    simpl; [done |].
  pose proof (schedule_task_inv day_start base_minutes trained
                available_operators base_on_grid st task I) as I'.
  pose proof (schedule_task_chain st task I Hch) as C'.
  destruct (schedule_task _ _ _ _ st task) as [st' row]. by apply IH.
Qed.

End Chain.

(** X18.  The assignments of an operator on a day, in commit order, start
    at the day start and follow one another without a gap: each starts at
    the minute the previous one ends, so the operator is busy from 08:00
    for exactly the minutes assigned. *)
Theorem operator_back_to_back d tasks trainings stations available op :
  let asg := (schedule_day_with_remaining d tasks trainings stations available).1 in
  back_to_back (dt_combine d START_TIME) (of_operator op asg)
  /\ forall a, a ∈ of_operator op asg ->
       end_ a <= dt_combine d START_TIME + op_minutes op asg.
Proof.
  intros asg. unfold asg.
  destruct (Z_lt_le_dec (weekday d) 5) as [Hwd | Hwd].
  - destruct (schedule_day_weekday d tasks trainings stations available Hwd)
      as (st & rows & Hrun & Hres & I & Hbase).
    rewrite Hres. simpl.
    assert (Hgrid : (TIME_STEP_MIN | base_minutes_of (weekday d))).
    { unfold TIME_STEP_MIN. destruct Hbase as [-> | ->];
        [exists 32 | exists 24]; lia. }
    assert (Hpos : 0 <= base_minutes_of (weekday d)) by (destruct Hbase; lia).
    assert (Hinit : day_chain (dt_combine d START_TIME)
                      (init_state (base_minutes_of (weekday d)) available))
      by (intros op'; exact Logic.I).
    pose proof (schedule_rows_chain (dt_combine d START_TIME)
                  (base_minutes_of (weekday d))
                  (filter (fun r => tr_Trained r = "Y"%string) trainings)
                  available Hgrid (day_tasks tasks stations)
                  (init_state (base_minutes_of (weekday d)) available) []
                  (init_state_inv _ _ _ _ Hpos) Hinit) as Hch.
    rewrite Hrun in Hch. simpl in Hch.
    split; [apply Hch |].
    rewrite op_minutes_of_operator.
    apply (back_to_back_cover _ _ op (of_operator_ok _ _ _ _ st op I) (Hch op)).
  - rewrite schedule_day_weekend by done. simpl.
    split; [done |]. intros a Ha. by apply elem_of_nil in Ha.
Qed.

(** ** Demand summary ([summarize_demand]) *)

(** ** The week-hours axis of the Gantt chart ([cum_hours]) *)

(** ** The demand summary *)

Lemma insert_week_elem x y l : y ∈ insert_week x l <-> y = x \/ y ∈ l.
Proof.
  induction l as [| z l IH]; simpl.
  - rewrite elem_of_cons, elem_of_nil. tauto.
  - destruct (x <? z) eqn:E1; [rewrite !elem_of_cons; tauto |].
    destruct (z <? x) eqn:E2.
    + rewrite !elem_of_cons, IH. tauto.
    + assert (x = z) as -> by lia. rewrite !elem_of_cons. tauto.
Qed.

Lemma insert_week_sorted x l :
  StronglySorted Z.lt l -> StronglySorted Z.lt (insert_week x l).
Proof.
  intros Hs. induction Hs as [| z l Hs IH Hall]; simpl.
  - repeat constructor.
  - destruct (x <? z) eqn:E1.
    + constructor; [by constructor |].
      constructor; [lia |].
      eapply Forall_impl; [exact Hall |]. intros w Hw. simpl in Hw. lia.
    + destruct (z <? x) eqn:E2; [| by constructor].
      constructor; [done |].
      apply Forall_forall. intros w Hw.
      apply insert_week_elem in Hw as [-> | Hw]; [lia |].
      rewrite Forall_forall in Hall. by apply Hall.
Qed.

Lemma insert_week_length x l :
  (length l <= length (insert_week x l) <= S (length l))%nat.
Proof.
  induction l as [| z l IH]; simpl; [lia |].
  destruct (x <? z); [simpl; lia |]. destruct (z <? x); simpl; lia.
Qed.

Lemma iso_weeks_spec days :
  StronglySorted Z.lt (iso_weeks days)
  /\ (forall w, w ∈ iso_weeks days <-> exists d, d ∈ days /\ iso_week d = w)
  /\ (length (iso_weeks days) <= length days)%nat
  /\ (days <> [] -> (1 <= length (iso_weeks days))%nat).
Proof.
  unfold iso_weeks. induction days as [| d days (IHs & IHe & IHl & IHn)]; simpl.
  - split; [constructor |]. split; [| split; [lia | done]].
    intros w. rewrite elem_of_nil. split; [done |].
    intros (d & Hd & _). by apply elem_of_nil in Hd.
  - pose proof (insert_week_length (iso_week d)
                  (fold_right insert_week [] (map iso_week days))) as Hlen.
    split; [by apply insert_week_sorted |]. split; [| split; [lia |]].
    + intros w. rewrite insert_week_elem, IHe. split.
      * intros [-> | (d' & Hd' & <-)]; [exists d; split; [by left | done] |].
        exists d'. split; [by right | done].
      * intros (d' & Hd' & <-). apply elem_of_cons in Hd' as [-> | Hd'];
          [by left | right; eauto].
    + intros _. destruct (fold_right insert_week [] (map iso_week days));
        simpl in *; [lia |]. lia.
Qed.

Lemma ceil_div_bounds a n : 0 < n -> a <= n * ceil_div a n < a + n.
Proof.
  intros Hn. unfold ceil_div.
  pose proof (Z.div_mod (- a) n ltac:(lia)).
  pose proof (Z.mod_pos_bound (- a) n Hn). nia.
Qed.

(** X19.  For a month in the range of [date], [summarize_demand] spreads
    every demand row of the month over the ISO weeks that hold a business
    day of the month (at least one, each once, in ascending order of week
    number): it returns one row per demand row and week.  For a monthly
    quantity below 2^52 in absolute value, where the binary64 quotient of
    the source has the ceiling of the exact one, the weekly quantity of
    the weeks together covers the monthly quantity and exceeds it by less
    than one unit per week. *)
Theorem summarize_demand_spec dmd y m :
  month_in_range y m ->
  let weeks := iso_weeks (business_days_in_month y m) in
  let month_df :=
    filter (fun r => (dm_Year r.1 =? y) && (dm_Month r.1 =? m) = true) dmd in
  let out := summarize_demand dmd y m in
  (1 <= length weeks <= 23)%nat
  /\ StronglySorted Z.lt weeks
  /\ (forall w, w ∈ weeks <->
        exists d, d ∈ business_days_in_month y m /\ iso_week d = w)
  /\ length out = (length month_df * length weeks)%nat
  /\ forall o, o ∈ out ->
       s_Month o = m /\ s_Week o ∈ weeks
       /\ (exists r, r ∈ month_df /\ s_Product o = dm_Product r.1
             /\ s_ProductDesc o = default ""%string r.2
             /\ s_MonthlyQty o = int_of_Q (dm_Quantity r.1))
       /\ (Z.abs (s_MonthlyQty o) < 2 ^ 52 ->
           s_MonthlyQty o <= Z.of_nat (length weeks) * s_WeeklyQty o
           < s_MonthlyQty o + Z.of_nat (length weeks)).
Proof.
  intros (_ & Hm & _) weeks month_df out.
  destruct (iso_weeks_spec (business_days_in_month y m))
    as (Hsorted & Helem & Hlen & Hne).
  destruct (business_days_length y m Hm) as [Hlo Hhi].
  fold weeks in Hsorted, Helem, Hlen, Hne.
  assert (Hw : (1 <= length weeks <= 23)%nat).
  { split; [| lia]. apply Hne. intros E. rewrite E in Hlo. simpl in Hlo. lia. }
  split; [done |]. split; [done |]. split; [done |].
  unfold out, summarize_demand. fold month_df weeks.
  assert (Hgen : forall l : list (DemandRow * option string),
            let res :=
              flat_map (fun r =>
                map (fun ww => mkSummary m (dm_Product r.1)
                                 (default ""%string r.2)
                                 (int_of_Q (dm_Quantity r.1)) ww
                                 (ceil_div (int_of_Q (dm_Quantity r.1))
                                    (Z.max 1 (Z.of_nat (length weeks)))))
                  weeks) l in
            length res = (length l * length weeks)%nat
            /\ forall o, o ∈ res ->
                 s_Month o = m /\ s_Week o ∈ weeks
                 /\ (exists r, r ∈ l /\ s_Product o = dm_Product r.1
                       /\ s_ProductDesc o = default ""%string r.2
                       /\ s_MonthlyQty o = int_of_Q (dm_Quantity r.1))
                 /\ (Z.abs (s_MonthlyQty o) < 2 ^ 52 ->
                     s_MonthlyQty o <= Z.of_nat (length weeks) * s_WeeklyQty o
                     < s_MonthlyQty o + Z.of_nat (length weeks))).
  { intros l res. unfold res. split.
    - induction l as [| r l IH]; [done |].
      cbn [flat_map]. rewrite length_app, length_map, IH. simpl. lia.
    - intros o Ho. apply list_elem_of_In, in_flat_map in Ho as (r & Hr & Ho).
      apply in_map_iff in Ho as (ww & <- & Hww). simpl.
      split; [done |]. split; [by apply list_elem_of_In |].
      split; [exists r; split; [by apply list_elem_of_In | done] |].
      intros _.
      replace (Z.max 1 (Z.of_nat (length weeks)))
        with (Z.of_nat (length weeks)) by lia.
      apply ceil_div_bounds. lia. }
  destruct month_df as [| r0 rs] eqn:E.
  - split; [done |]. intros o Ho. by apply elem_of_nil in Ho.
  - apply Hgen.
Qed.

Lemma summarize_demand_spec_witness :
  month_in_range 2021 2
  /\ length (summarize_demand [(mkDemand 2021 2 "P1" 21, None)] 2021 2)
     = (1 * length (iso_weeks (business_days_in_month 2021 2)))%nat.
Proof.
  assert (H : month_in_range 2021 2) by (unfold month_in_range; lia).
  split; [exact H |].
  exact (proj1 (proj2 (proj2 (proj2
           (summarize_demand_spec [(mkDemand 2021 2 "P1" 21, None)] 2021 2 H))))).
Defined.

(** ** The Gantt chart of a proposal *)

Lemma cum_hours_in_day (ord k x : Z) :
  0 <= k <= 4 -> (ord + 6) mod 7 = k -> 0 <= x < 960 ->
  cum_hours ((ord - 1) * 1440 + 480 + x) == hours_before k + inject_Z x / 60.
Proof.
  intros Hk Hwd Hx. unfold cum_hours.
  assert (Hdiv : ((ord - 1) * 1440 + 480 + x) / 1440 = ord - 1)
    by (Z.to_euclidean_division_equations; lia).
  rewrite Hdiv.
  replace (ord - 1 + 1 + 6) with (ord + 6) by lia. rewrite Hwd.
  replace ((ord - 1) * 1440 + 480 + x - ((ord - 1) * 1440 + 8 * 60)) with x
    by lia.
  rewrite inject_Z_mult. change (inject_Z 60) with 60%Q. field.
Qed.

Lemma hours_before_step k :
  0 <= k <= 4 ->
  hours_before (k + 1) == hours_before k + inject_Z (base_minutes_of k) / 60
  /\ (0 <= hours_before k)%Q /\ (hours_before (k + 1) <= 38)%Q.
Proof.
  intros Hk.
  assert (Hc : k = 0 \/ k = 1 \/ k = 2 \/ k = 3 \/ k = 4) by lia.
  destruct Hc as [-> | [-> | [-> | [-> | ->]]]]; vm_compute; repeat split;
    discriminate.
Qed.

(** X20.  On the week-hours axis of the dashboard's Gantt chart every
    record of a written proposal is a bar inside the band of its weekday:
    it starts at [cum_hours] of its Start, which is the hours of the
    working days before it plus the hours since 08:00, and with its
    DurationHours it ends by the start of the next day's band; all bars lie
    between 0 and 38 hours. *)
Theorem gantt_bar_in_band data target_date avail n draw files monday i rows r :
  valid_date target_date ->
  generate_weekly_proposals data target_date avail n draw = Returned files ->
  (monday, i, rows) ∈ files -> r ∈ rows ->
  exists k, 0 <= k <= 4
    /\ o_Date r = toordinal monday + k
    /\ (hours_before k <= cum_hours (o_Start r))%Q
    /\ (cum_hours (o_Start r) + o_DurationHours r <= hours_before (k + 1))%Q
    /\ (0 <= hours_before k)%Q /\ (hours_before (k + 1) <= 38)%Q.
Proof.
  intros Hvalid Hgen Hfile Hr.
  destruct (generated_record _ _ _ _ _ _ _ _ _ _ Hvalid Hgen Hfile Hr)
    as (a & k & -> & Hk & Hwk & Hord & (Hs & Hlt & He & Hop & [q Hq] & Hh)).
  exists k. rewrite Hwk in He. pose proof (base_minutes_of_le k) as Hb.
  destruct (hours_before_step k Hk) as (Hstep & H0 & H38).
  unfold dt_combine, START_TIME in Hs, He. rewrite Hord in Hs, He.
  set (ord := toordinal monday + k) in *.
  assert (Hwd : (ord + 6) mod 7 = k) by (unfold weekday in Hwk; by rewrite Hord in Hwk).
  set (x := start a - ((ord - 1) * 1440 + 480)).
  assert (Hx : 0 <= x < 960) by (unfold x; lia).
  assert (Hstart : start a = (ord - 1) * 1440 + 480 + x) by (unfold x; lia).
  assert (Hcum : cum_hours (start a) == hours_before k + inject_Z x / 60)
    by (rewrite Hstart; by apply cum_hours_in_day).
  assert (Hdur : round2 (duration_h a) == inject_Z (end_ a - start a) / 60).
  { rewrite (round2_exact _ (q * 25)); [done |].
    rewrite Hh, Hq. unfold TIME_STEP_MIN. rewrite !inject_Z_mult.
    change (inject_Z 15) with 15%Q. change (inject_Z 25) with 25%Q. field. }
  split; [done |]. simpl.
  split.
  { unfold dt_combine, START_TIME in *.
    assert (start a / 1440 = ord - 1) by (Z.to_euclidean_division_equations; lia).
    lia. }
  rewrite Hcum, Hdur, Hstep.
  assert (H38' : (hours_before k + inject_Z (base_minutes_of k) / 60 <= 38)%Q)
    by (rewrite <- Hstep; done).
  assert (Hxq : (0 <= inject_Z x)%Q)
    by (change 0%Q with (inject_Z 0); rewrite <- Zle_Qle; lia).
  assert (Hyq : (inject_Z x + inject_Z (end_ a - start a)
                 <= inject_Z (base_minutes_of k))%Q)
    by (rewrite <- inject_Z_plus, <- Zle_Qle; unfold x; lia).
  revert H38' Hxq Hyq.
  generalize (inject_Z x), (inject_Z (end_ a - start a)),
    (inject_Z (base_minutes_of k)).
  intros xq dq bq H38' Hxq Hyq.
  unfold Qdiv in *. change (/ 60)%Q with (1 # 60)%Q in *.
  repeat split; try done; lra.
Qed.

Lemma gantt_bar_in_band_witness :
  valid_date (mkdate 2021 2 3)
  /\ (demo_monday, 1, [demo_r1; demo_r2])
     ∈ [(demo_monday, 1, [demo_r1; demo_r2])]
  /\ demo_r2 ∈ [demo_r1; demo_r2]
  /\ exists k, 0 <= k <= 4
       /\ o_Date demo_r2 = toordinal demo_monday + k
       /\ (hours_before k <= cum_hours (o_Start demo_r2))%Q
       /\ (cum_hours (o_Start demo_r2) + o_DurationHours demo_r2
           <= hours_before (k + 1))%Q
       /\ (0 <= hours_before k)%Q /\ (hours_before (k + 1) <= 38)%Q.
Proof.
  assert (H1 : (demo_monday, 1, [demo_r1; demo_r2])
               ∈ [(demo_monday, 1, [demo_r1; demo_r2])]) by left.
  assert (H2 : demo_r2 ∈ [demo_r1; demo_r2]) by (right; left).
  split; [exact demo_date_valid |]. split; [exact H1 |]. split; [exact H2 |].
  exact (gantt_bar_in_band demo_week_tables (mkdate 2021 2 3) demo_avail
           1 (fun _ => 1%Q) _ demo_monday 1 _ demo_r2 demo_date_valid
           demo_week_run H1 H2).
Defined.

(** ** Where binary64 and exact arithmetic differ *)

(** The binary64 number nearest to 1/60 is below 1/60, yet its binary64
    product with 60 is 1: the source asks for one minute and books a slot
    of 15 minutes, where the exact product asks for none.  This is why
    [under_a_minute] stays one binary64 step below one minute. *)
Lemma slot_minutes_near_a_minute :
  exists q, b64_value (1 / 60)%float = Some q
    /\ (0 < q < 1 # 60)%Q
    /\ ~ under_a_minute q
    /\ b64_slot_minutes (1 / 60)%float TIME_STEP_MIN = Some 15
    /\ round_up_to_step (int_of_Q (q * 60)) TIME_STEP_MIN = 0.
Proof.
  eexists. split; [vm_compute; reflexivity |].
  split; [split; vm_compute; reflexivity |].
  split; [| split; vm_compute; reflexivity].
  intros [_ H]. vm_compute in H. apply H. reflexivity.
Qed.

(** The binary64 number nearest to 4/15 is below 4/15, its binary64
    product with 60 is 16: the source books 30 minutes where the exact
    product, below 16, asks for 15.  Both lengths are multiples of the
    step within one minute below and one step above the requested
    minutes. *)
Lemma slot_minutes_near_sixteen :
  exists q, b64_value (4 / 15)%float = Some q
    /\ b64_slot_minutes (4 / 15)%float TIME_STEP_MIN = Some 30
    /\ round_up_to_step (int_of_Q (q * 60)) TIME_STEP_MIN = 15
    /\ (q * 60 - 1 < 15)%Q /\ (30 < q * 60 + 15)%Q.
Proof.
  eexists. split; [vm_compute; reflexivity |].
  repeat split; vm_compute; reflexivity.
Qed.

(** The remainder 0.065 h is carried as 0.07 h.  As binary64 numbers the
    two differ by more than 0.005 h, though by less than 0.01 h: the
    rounding to two decimals moves a remainder by at most 0.005 h, its
    representation adds to that. *)
Lemma carried_remainder_binary64 :
  exists q q', b64_value (65 / 1000)%float = Some q
    /\ b64_value (7 / 100)%float = Some q'
    /\ round2 q = (7 # 100)%Q
    /\ (1 # 200 < q' - q)%Q /\ (q' - q < 1 # 100)%Q.
Proof.
  eexists. eexists. split; [vm_compute; reflexivity |].
  split; [vm_compute; reflexivity |].
  repeat split; vm_compute; reflexivity.
Qed.
